From Stdlib Require Import ZArith QArith Qround Qabs Qpower Lia Lqa Sorted.
From stdpp Require Import base option list gmap strings pretty.

(** * Verification of the HR dashboard's point-in-time headcount logic

    The development follows [app.py]: a roster (the frame [df_master]) is
    filtered by date masks into the current head count, the average tenure,
    the year-to-date exits and a monthly trend.  Cells are modelled as the
    frame holds them: timestamps in nanoseconds since 1970-01-01 with [None]
    for NaT, strings with [None] for NaN, floats as the rational numbers they
    are with [None] for NaN.  The pipeline is given first with arithmetic
    that does not round, then over the float operations of the library and
    on sheets that may lack columns. *)

Local Open Scope Z_scope.

(** * The calendar of the datetime library

    Dates are day numbers, day 0 being 1970-01-01, in the proleptic Gregorian
    calendar of [datetime] and [pandas]. *)

Module Calendar.

Definition is_leap (y : Z) : bool :=
  (y mod 4 =? 0) && (negb (y mod 100 =? 0) || (y mod 400 =? 0)).

(** Days from 0001-01-01 to 1 January of year [y]. *)
Definition days_before_year (y : Z) : Z :=
  let p := y - 1 in p * 365 + p / 4 - p / 100 + p / 400.

(** Days of the year before the first of month [m] (13 stands for the end
    of the year). *)
Definition days_before_month (leap : bool) (m : Z) : Z :=
  nth (Z.to_nat (m - 1)) [0; 31; 59; 90; 120; 151; 181; 212; 243; 273; 304; 334; 365] 0
  + (if (2 <? m) && leap then 1 else 0).

Definition days_in_month (y m : Z) : Z :=
  if (m =? 2) && is_leap y then 29
  else nth (Z.to_nat (m - 1)) [31; 28; 31; 30; 31; 30; 31; 31; 30; 31; 30; 31] 0.

(** The day number of the date [y]-[m]-[d]; 719163 is the ordinal of
    1970-01-01 counted from 0001-01-01. *)
Definition ymd2ord (y m d : Z) : Z :=
  days_before_year y + days_before_month (is_leap y) m + d - 719163.

(** The year of day [n], by cycles of 400, 100, 4 and 1 years. *)
Definition year_of (n : Z) : Z :=
  let n0 := n + 719162 in
  let n400 := n0 / 146097 in
  let r400 := n0 mod 146097 in
  let n100 := r400 / 36524 in
  let r100 := r400 mod 36524 in
  let n4 := r100 / 1461 in
  let r4 := r100 mod 1461 in
  let n1 := r4 / 365 in
  let year := n400 * 400 + 1 + n100 * 100 + n4 * 4 + n1 in
  if (n1 =? 4) || (n100 =? 4) then year - 1 else year.

(** The month holding the zero-based day [yd] of a year. *)
Definition month_of_yday (leap : bool) (yd : Z) : Z :=
  let fix go (ms : list Z) : Z :=
    match ms with
    | [] => 1
    | m :: ms' => if days_before_month leap m <=? yd then m else go ms'
    end in
  go [12; 11; 10; 9; 8; 7; 6; 5; 4; 3; 2; 1].

(** Year, month and day of month of day [n]. *)
Definition ord2ymd (n : Z) : Z * Z * Z :=
  let y := year_of n in
  let yd := n + 719162 - days_before_year y in
  let m := month_of_yday (is_leap y) yd in
  (y, m, yd - days_before_month (is_leap y) m + 1).

(** ** The month-end offset (frequency 'ME') and [pd.date_range] *)

(** The last day of month [m] of year [y]. *)
Definition month_end (y m : Z) : Z := ymd2ord y m (days_in_month y m).

(** Whether day [n] is the last day of its month. *)
Definition is_on_offset (n : Z) : bool :=
  let '(y, m, d) := ord2ymd n in d =? days_in_month y m.

(** [n + MonthEnd(1)]: the end of the month of [n], or of the next month when
    [n] is a month end already. *)
Definition add_month_end (n : Z) : Z :=
  let '(y, m, d) := ord2ymd n in
  if d =? days_in_month y m
  then (if m =? 12 then month_end (y + 1) 1 else month_end y (m + 1))
  else month_end y m.

(** The first month end on or after [n]. *)
Definition rollforward (n : Z) : Z :=
  if is_on_offset n then n else add_month_end n.

(** The generator behind [date_range]: [while cur <= end: yield cur; cur += offset]. *)
Fixpoint generate_range (fuel : nat) (cur end_ : Z) : list Z :=
  match fuel with
  | O => []
  | S fuel' =>
      if cur <=? end_ then cur :: generate_range fuel' (add_month_end cur) end_
      else []
  end.

(** [pd.date_range(start=start, end=end_, freq='ME')] on midnight timestamps,
    as day numbers.  Every step advances by at least one day, so the number
    of days in the window bounds the number of steps. *)
Definition date_range (start end_ : Z) : list Z :=
  generate_range (Z.to_nat (end_ - start + 1)) (rollforward start) end_.

End Calendar.

Import Calendar.

(** * Cells, series and frames *)

(** A [pd.Timestamp]: nanoseconds since 1970-01-01T00:00; a cell of a
    datetime column is [None] when it is NaT. *)
Abbreviation Timestamp := Z (only parsing).

Definition ns_per_day : Z := 86400000000000.

(** [pd.to_datetime] of a calendar date (given as its day number): midnight. *)
Definition to_datetime (day : Z) : Timestamp := day * ns_per_day.

(** The day number of the day a timestamp falls on. *)
Definition ts_day (t : Timestamp) : Z := t / ns_per_day.

(** [t.year] *)
Definition ts_year (t : Timestamp) : Z := year_of (ts_day t).

(** [datetime(y, m, d)] compared with a datetime column. *)
Definition datetime (y m d : Z) : Timestamp := to_datetime (ymd2ord y m d).

(** [t.strftime("%Y-%m")] *)
Definition strftime_Ym (t : Timestamp) : string :=
  let '(y, m, _) := ord2ymd (ts_day t) in
  pretty y +:+ "-" +:+ (if m <? 10 then "0" +:+ pretty m else pretty m).

(** A float cell: an exact rational, or [None] for NaN. *)
Abbreviation float := (option Q) (only parsing).

(** One row of the sheet after [rename_map]; the fields are the columns
    사번, 이름, 부서, 직급, 입사일, 퇴사일 and 성별. *)
Record Row := {
  emp_no : string;
  name : string;
  dept : option string;
  rank : string;
  hire_date : option Timestamp;
  exit_date : option Timestamp;
  gender : string
}.

(** Comparisons of a datetime column with a scalar; NaT compares false. *)
Definition ts_cmp (op : Z -> Z -> bool) (s : list (option Timestamp)) (t : Timestamp)
  : list bool :=
  (fun c => match c with Some v => op v t | None => false end) <$> s.

Definition ts_le := ts_cmp Z.leb.
Definition ts_ge := ts_cmp Z.geb.
Definition ts_gt := ts_cmp Z.gtb.

Definition isna {A} (s : list (option A)) : list bool :=
  (fun c => match c with Some _ => false | None => true end) <$> s.

(** [s == v] on an object column; NaN equals nothing. *)
Definition str_eq (s : list (option string)) (v : option string) : list bool :=
  (fun c => match c, v with
            | Some a, Some b => bool_decide (a = b)
            | _, _ => false
            end) <$> s.

Definition mask_and : list bool -> list bool -> list bool := zip_with andb.
Definition mask_or : list bool -> list bool -> list bool := zip_with orb.

(** [df[mask]]: the rows whose mask entry is true, in order, as a new list. *)
Fixpoint bool_index {A} (df : list A) (mask : list bool) : list A :=
  match df, mask with
  | x :: df', b :: mask' =>
      if b then x :: bool_index df' mask' else bool_index df' mask'
  | _, _ => []
  end.

(** [t - s], [.dt.days] and [/ k] on a datetime column. *)
Definition ts_rsub (t : Timestamp) (s : list (option Timestamp)) : list (option Z) :=
  (fun c : option Timestamp => (fun v => t - v) <$> c) <$> s.

Definition dt_days (s : list (option Z)) : list (option Z) :=
  (fun c : option Z => (fun d => d / ns_per_day) <$> c) <$> s.

Definition div_scalar (s : list (option Z)) (k : Z) : list float :=
  (fun c : option Z => (fun d => (inject_Z d / inject_Z k)%Q) <$> c) <$> s.

Definition Qsum (xs : list Q) : Q := foldr Qplus 0%Q xs.

(** [s.mean()]: NaN cells are skipped; NaN when nothing is left. *)
Definition series_mean (s : list float) : float :=
  match omap id s with
  | [] => None
  | xs => Some (Qsum xs / inject_Z (Z.of_nat (length xs)))%Q
  end.

(** Round to the nearest integer, ties to the even one. *)
Definition rint (q : Q) : Z :=
  let f := Qfloor q in
  match (q - inject_Z f ?= 1 # 2)%Q with
  | Lt => f
  | Gt => f + 1
  | Eq => if Z.even f then f else f + 1
  end.

(** [round(x, 1)]: scale by ten, round to the nearest integer, scale back;
    NaN stays NaN. *)
Definition round1q (q : Q) : Q := (inject_Z (rint (q * 10)) / 10)%Q.

Definition round1 (x : float) : float := round1q <$> x.

(** [s.unique()]: the distinct cells in order of first appearance. *)
Fixpoint unique_from {A} `{EqDecision A} (seen : list A) (s : list A) : list A :=
  match s with
  | [] => []
  | x :: s' =>
      if decide (x ∈ seen) then unique_from seen s'
      else x :: unique_from (x :: seen) s'
  end.

Definition unique {A} `{EqDecision A} (s : list A) : list A := unique_from [] s.

(** * The render pass of [app.py], sections 3 to 5 *)

(** The entry of the department selector that disables the filter. *)
Definition ALL : string := "전체".

(** An entry of [trend_data]: the keys 기준월 and 인원수. *)
Record TrendPoint := { base_month : string; headcount : nat }.

(** [pd.date_range(start, end, freq='ME')] on midnight timestamps. *)
Definition pd_date_range (start end_ : Timestamp) : list Timestamp :=
  to_datetime <$> Calendar.date_range (ts_day start) (ts_day end_).

Section Render.
(** The loaded roster, the date picked in the sidebar (a day number) and
    the selected department. *)
Variable df_master : list Row.
Variable picked : Z.
Variable selected_dept : option string.

(** Line 62: the picked date as a timestamp. *)
Definition target_date : Timestamp := to_datetime picked.

Definition dept_list : list (option string) :=
  Some ALL :: unique (dept <$> df_master).

(** [selected_dept != "전체"] *)
Definition dept_filtered : bool := negb (bool_decide (selected_dept = Some ALL)).

Definition mask_current : list bool :=
  mask_and (ts_le (hire_date <$> df_master) target_date)
           (mask_or (isna (exit_date <$> df_master))
                    (ts_ge (exit_date <$> df_master) target_date)).

(** [df_current] after line 74 and after the department filter. *)
Definition df_current_unfiltered : list Row := bool_index df_master mask_current.

Definition df_current : list Row :=
  if dept_filtered
  then bool_index df_current_unfiltered
                  (str_eq (dept <$> df_current_unfiltered) selected_dept)
  else df_current_unfiltered.

Definition total_count : nat := length df_current.

(** The column 근속년수 assigned at line 86. *)
Definition tenure_years : list float :=
  div_scalar (dt_days (ts_rsub target_date (hire_date <$> df_current))) 365.

Definition avg_tenure : float :=
  if negb (bool_decide (df_current = []))
  then round1 (series_mean tenure_years)
  else Some 0%Q.

Definition start_of_year : Timestamp := datetime (ts_year target_date) 1 1.

(** Lines 93 to 95. *)
Definition mask_exit : list bool :=
  let m := mask_and (ts_ge (exit_date <$> df_master) start_of_year)
                    (ts_le (exit_date <$> df_master) target_date) in
  if dept_filtered then mask_and m (str_eq (dept <$> df_master) selected_dept)
  else m.

Definition exit_count : nat := length (bool_index df_master mask_exit).

(** [pd.to_datetime("2023-01-31")] *)
Definition start_trend_date : Timestamp := datetime 2023 1 31.

Definition date_range : list Timestamp :=
  if target_date <? start_trend_date
  then pd_date_range target_date target_date
  else pd_date_range start_trend_date target_date.

(** The body of the loop over [date_range], lines 114 to 120. *)
Definition mask_month (d : Timestamp) : list bool :=
  mask_and (ts_le (hire_date <$> df_master) d)
           (mask_or (isna (exit_date <$> df_master))
                    (ts_gt (exit_date <$> df_master) d)).

Definition temp_df (d : Timestamp) : list Row :=
  let t := bool_index df_master (mask_month d) in
  if dept_filtered then bool_index t (str_eq (dept <$> t) selected_dept) else t.

Definition trend_data : list TrendPoint :=
  (fun d => {| base_month := strftime_Ym d; headcount := length (temp_df d) |})
    <$> date_range.
End Render.

(** * The membership predicate of the specification (section 4.2) *)

Inductive BoundaryMode := Inclusive | Strict.

(** Active iff the hire date is present and not after the reference date, and
    the exit date is absent or, by mode, not before / strictly after it. *)
Definition is_active (mode : BoundaryMode) (r : Row) (t : Timestamp) : bool :=
  match hire_date r with
  | None => false
  | Some h =>
      (h <=? t) &&
      match exit_date r with
      | None => true
      | Some e => match mode with Inclusive => e >=? t | Strict => e >? t end
      end
  end.

(** A row passes the department filter when the filter is ALL or names the
    row's department. *)
Definition passes_dept (sel : option string) (r : Row) : bool :=
  if dept_filtered sel
  then match dept r, sel with
       | Some a, Some b => bool_decide (a = b)
       | _, _ => false
       end
  else true.

(** A row with the given department, hire date and exit date; the other
    columns are left empty. *)
Definition row_of (d : option string) (h e : option Timestamp) : Row :=
  {| emp_no := ""; name := ""; dept := d; rank := "";
     hire_date := h; exit_date := e; gender := "" |}.

(** The two-row roster of the specification's scenario. *)
Definition scenario : list Row :=
  [row_of (Some "A") (Some (datetime 2022 1 10)) None;
   row_of (Some "B") (Some (datetime 2023 3 1)) (Some (datetime 2024 6 15))].

(** * The quantities of the specification (section 4.4) *)

(** The specification's window: the exit date is in the reference date's
    calendar year and not after the reference date. *)
Definition exit_in_ytd (picked : Z) (r : Row) : bool :=
  match exit_date r with
  | Some e => (ts_year e =? ts_year (to_datetime picked)) && (e <=? to_datetime picked)
  | None => false
  end.


(** The active set of the specification: the rows in Inclusive mode at the
    reference date that pass the department filter. *)
Definition active_set (df : list Row) (picked : Z) (sel : option string) : list Row :=
  List.filter (fun r => is_active Inclusive r (to_datetime picked) && passes_dept sel r) df.

(** Whole days from the hire date to the reference date. *)
Definition tenure_days (t : Timestamp) (r : Row) : Z :=
  match hire_date r with
  | Some h => (t - h) / ns_per_day
  | None => 0
  end.

(** The arithmetic mean over [active] of the days of tenure divided by 365. *)
Definition mean_tenure_years (active : list Row) (t : Timestamp) : Q :=
  (Qsum ((fun r => inject_Z (tenure_days t r) / inject_Z 365) <$> active)
   / inject_Z (Z.of_nat (length active)))%Q.


(** * The render pass on the store

    Frames are objects: [df_master[mask]] and [.copy()] make a new frame,
    [df['근속년수'] = ...] writes the frame it is applied to.  The store maps a
    reference to the frame it denotes; a read of a reference that is not there,
    or of a column that is not there, raises. *)

Record Frame := {
  rows : list Row;
  (** the column 근속년수, once it has been assigned *)
  tenure_col : option (list float)
}.

Abbreviation Store := (gmap nat Frame).

Definition M (A : Type) : Type := Store -> option (A * Store).

Definition ret {A} (a : A) : M A := fun σ => Some (a, σ).

Definition bind {A B} (m : M A) (k : A -> M B) : M B :=
  fun σ => match m σ with
           | Some (a, σ') => k a σ'
           | None => None
           end.

Notation "'let*' x ':=' m 'in' k" := (bind m (fun x => k))
  (at level 10, x name, m at level 100, k at level 200, only parsing).

Definition alloc (f : Frame) : M nat :=
  fun σ => let l := fresh (dom σ) in Some (l, <[l := f]> σ).

Definition load (l : nat) : M Frame :=
  fun σ => match σ !! l with
           | Some f => Some (f, σ)
           | None => None
           end.

(** [df[mask]] *)
Definition getitem_mask (l : nat) (mask : list bool) : M nat :=
  let* f := load l in
  alloc {| rows := bool_index (rows f) mask;
           tenure_col := (fun c => bool_index c mask) <$> tenure_col f |}.

(** [df.copy()] *)
Definition copy (l : nat) : M nat :=
  let* f := load l in alloc f.

(** [df['근속년수'] = col] *)
Definition setitem_tenure (l : nat) (col : list float) : M unit :=
  fun σ => match σ !! l with
           | Some f => Some (tt, <[l := {| rows := rows f; tenure_col := Some col |}]> σ)
           | None => None
           end.

(** [df['근속년수']] *)
Definition getitem_tenure (l : nat) : M (list float) :=
  let* f := load l in
  fun σ => match tenure_col f with
           | Some c => Some (c, σ)
           | None => None
           end.

(** [df = df[df['부서'] == selected_dept]] under [if selected_dept != "전체"] *)
Definition filter_dept (l : nat) (sel : option string) : M nat :=
  if dept_filtered sel
  then let* f := load l in getitem_mask l (str_eq (dept <$> rows f) sel)
  else ret l.

(** The loop of lines 111 to 125. *)
Fixpoint trend_loop (master : nat) (sel : option string) (ds : list Timestamp)
  : M (list TrendPoint) :=
  match ds with
  | [] => ret []
  | d :: ds' =>
      let* m := load master in
      let* t := getitem_mask master (mask_month (rows m) d) in
      let* t := filter_dept t sel in
      let* f := load t in
      let* rest := trend_loop master sel ds' in
      ret ({| base_month := strftime_Ym d; headcount := length (rows f) |} :: rest)
  end.

(** What a render pass hands to the page: [total_count], [avg_tenure],
    [exit_count] and [df_trend]. *)
Record Kpis := {
  kpi_total_count : nat;
  kpi_avg_tenure : float;
  kpi_exit_count : nat;
  kpi_trend : list TrendPoint
}.

(** Lines 72 to 127, with [df_master] at the reference [master]. *)
Definition render (master : nat) (picked : Z) (sel : option string) : M Kpis :=
  let* m := load master in
  let* tmp := getitem_mask master (mask_current (rows m) picked) in
  let* cur := copy tmp in
  let* cur := filter_dept cur sel in
  let* c := load cur in
  let* avg :=
    (if negb (bool_decide (rows c = []))
     then
       let* _ := setitem_tenure cur
                   (div_scalar
                      (dt_days (ts_rsub (target_date picked) (hire_date <$> rows c))) 365) in
       let* col := getitem_tenure cur in
       ret (round1 (series_mean col))
     else ret (Some 0%Q)) in
  let* m := load master in
  let* ex := getitem_mask master (mask_exit (rows m) picked sel) in
  let* e := load ex in
  let* trend := trend_loop master sel (date_range picked) in
  ret {| kpi_total_count := length (rows c);
         kpi_avg_tenure := avg;
         kpi_exit_count := length (rows e);
         kpi_trend := trend |}.

(** ** Reasoning about runs *)

(** [wp m Q σ]: from [σ] the computation [m] returns, with a result and a
    store that [Q] accepts. *)
Definition wp {A} (m : M A) (Q : A -> Store -> Prop) (σ : Store) : Prop :=
  match m σ with
  | Some (a, σ') => Q a σ'
  | None => False
  end.


(** * The loader's column aliases (lines 25 to 40) *)

(** The entries of the dictionary [rename_map]. *)
Definition rename_pairs : list (string * string) :=
  [("사번", "사번"); ("성명", "이름"); ("이름", "이름");
   ("부서", "부서"); ("조직", "부서"); ("소속", "부서");
   ("직위", "직급"); ("직급", "직급");
   ("입사일", "입사일"); ("그룹입사일", "입사일");
   ("퇴사일", "퇴사일"); ("퇴사일자", "퇴사일");
   ("성별", "성별")].

Definition rename_map : gmap string string := list_to_map rename_pairs.

(** What [df.rename(columns=rename_map)] does to one label: a label that is
    not a key stays as it is. *)
Definition rename_column (c : string) : string := default c (rename_map !! c).

(** [df.rename(columns=rename_map).columns] from [df.columns]. *)
Definition rename_columns (cols : list string) : list string := rename_column <$> cols.

(** * Further notions used in the statements *)

(** The month of day [n], counted in months from January of year 0. *)
Definition month_index (n : Z) : Z :=
  let '(y, m, _) := ord2ymd n in 12 * y + (m - 1).

(** Line 143, [if not df_trend.empty]: whether the trend chart is drawn. *)
Definition trend_chart_shown (df : list Row) (picked : Z) (sel : option string) : bool :=
  negb (bool_decide (trend_data df picked sel = [])).

(** The rows that pass the filter, were hired by [t] and exit exactly at [t]. *)
Definition exits_at (t : Timestamp) (sel : option string) (r : Row) : bool :=
  match hire_date r, exit_date r with
  | Some h, Some e => (h <=? t) && (e =? t)
  | _, _ => false
  end && passes_dept sel r.

(** * The float64 operations behind lines 86 and 87

    A float64 that is not NaN is a rational number, so a float cell stays
    [option Q].  What the run-time does with the numbers is not fixed by
    [app.py]: the division [days / 365], [Series.mean] and [round(x, 1)] are
    float64 operations of the library, each rounding its result.  They are
    taken as they come, as three operations; [avg_tenure] above is the
    reading in which none of them rounds. *)
Record FloatOps := {
  (** [a / b] on two integers, as a float64 *)
  fl_div : Z -> Z -> Q;
  (** [Series.mean] on the cells of a column that are not NaN *)
  fl_mean : list Q -> Q;
  (** [round(x, 1)] *)
  fl_round1 : Q -> Q
}.

Definition div_scalar_fl (ops : FloatOps) (s : list (option Z)) (k : Z) : list float :=
  (fun c : option Z => (fun d => fl_div ops d k) <$> c) <$> s.

Definition series_mean_fl (ops : FloatOps) (s : list float) : float :=
  match omap id s with
  | [] => None
  | xs => Some (fl_mean ops xs)
  end.

Definition round1_fl (ops : FloatOps) (x : float) : float := fl_round1 ops <$> x.

(** Lines 84 to 89 over the operations [ops]. *)
Definition tenure_years_fl (ops : FloatOps) (df_master : list Row) (picked : Z)
    (selected_dept : option string) : list float :=
  div_scalar_fl ops
    (dt_days (ts_rsub (target_date picked)
                      (hire_date <$> df_current df_master picked selected_dept))) 365.

Definition avg_tenure_fl (ops : FloatOps) (df_master : list Row) (picked : Z)
    (selected_dept : option string) : float :=
  if negb (bool_decide (df_current df_master picked selected_dept = []))
  then round1_fl ops (series_mean_fl ops (tenure_years_fl ops df_master picked selected_dept))
  else Some 0%Q.

(** The operations that do not round. *)
Definition exact_ops : FloatOps :=
  {| fl_div := fun a b => (inject_Z a / inject_Z b)%Q;
     fl_mean := fun xs => (Qsum xs / inject_Z (Z.of_nat (length xs)))%Q;
     fl_round1 := round1q |}.

(** [x] lies within [e] of [y]. *)
Definition within (x y e : Q) : Prop := (y - e <= x /\ x <= y + e)%Q.

Definition Qmean (xs : list Q) : Q := (Qsum xs / inject_Z (Z.of_nat (length xs)))%Q.

(** What float64 arithmetic guarantees of the three operations, on
    non-negative numbers and columns of at most [N] cells: a quotient and a
    mean carry a relative error of at most [eps]; [round(x, 1)] is, up to
    that error, a whole number [k] of tenths, with [k] an integer nearest to
    [10 * x] up to that error.  For float64, whose operations round to
    nearest with unit roundoff 2^-53, and whatever the order in which the
    mean adds, eps = 2 * (N + 1) * 2^-53 is such a bound. *)
Record float_accurate (ops : FloatOps) (eps : Q) (N : Z) : Prop := {
  eps_range : (0 <= eps /\ eps <= 1 # 1000)%Q;
  div_close : forall a b : Z, 0 <= a -> 0 < b ->
    within (fl_div ops a b) (inject_Z a / inject_Z b) (eps * (inject_Z a / inject_Z b));
  mean_close : forall xs : list Q,
    xs <> [] -> Z.of_nat (length xs) <= N -> Forall (fun x => 0 <= x)%Q xs ->
    within (fl_mean ops xs) (Qmean xs) (eps * Qmean xs);
  round_close : forall x : Q, (0 <= x)%Q ->
    exists k : Z, 0 <= k /\
      within (inject_Z k) (10 * x) ((1 # 2) + eps * (10 * x)) /\
      within (fl_round1 ops x) (inject_Z k / 10) (eps * (inject_Z k / 10))
}.

(** ** float64 arithmetic, computed

    Rounding to the nearest number with 53 significant bits, ties to the even
    one, as every float64 operation rounds its exact result (in the normal
    range: neither overflow nor underflow). *)

Definition pow2 (e : Z) : Q := (2 ^ e)%Q.

(** The binary exponent of a positive number: the largest [e] with
    [2^e <= x]. *)
Definition ilog2 (x : Q) : Z :=
  let e0 := Z.log2 (Qnum x) - Z.log2 (Z.pos (Qden x)) in
  if Qle_bool (pow2 e0) x then e0 else e0 - 1.

Definition rnd64_pos (x : Q) : Q :=
  let s := pow2 (ilog2 x - 52) in Qred (inject_Z (rint (x / s)) * s).

Definition rnd64 (x : Q) : Q :=
  match (x ?= 0)%Q with
  | Eq => 0%Q
  | Gt => rnd64_pos x
  | Lt => (- rnd64_pos (- x))%Q
  end.

(** A sum that adds from left to right, rounding after each addition. *)
Definition f64_sum (xs : list Q) : Q := foldl (fun acc x => rnd64 (acc + x)) 0%Q xs.

(** The three operations in float64, the mean adding from left to right and
    [round(x, 1)] scaling by ten, rounding to an integer and scaling back. *)
Definition binary64_ops : FloatOps :=
  {| fl_div := fun a b => rnd64 (inject_Z a / inject_Z b);
     fl_mean := fun xs => rnd64 (f64_sum xs / inject_Z (Z.of_nat (length xs)));
     fl_round1 := fun x => rnd64 (inject_Z (rint (rnd64 (x * 10))) / 10) |}.

(** The unit roundoff of float64, and the bound it gives on the three
    operations for columns of up to 2^20 cells. *)
Definition u64 : Q := 1 # 9007199254740992.
Definition eps64 : Q := 2097154 # 9007199254740992.
Definition rows64 : Z := 1048576.

(** A roster with one row for each of the given numbers of days of tenure at
    the reference date. *)
Definition roster_of_tenures (picked : Z) (days : list Z) : list Row :=
  (fun d => row_of (Some "A") (Some (to_datetime (picked - d))) None) <$> days.

(** * The page on a loaded sheet (lines 59 to 127)

    A sheet need not have every column the page reads: [df['c']] raises
    [KeyError] when the frame has no column [c], and the name
    [selected_dept] is bound at line 66 only when the frame has the column
    부서. *)

Inductive Exn :=
| KeyError (label : string)
| NameError (name : string).

Inductive Outcome (A : Type) :=
| Returns (a : A)
| Raises (e : Exn).
Arguments Returns {A} a.
Arguments Raises {A} e.

Definition outcome_bind {A B} (m : Outcome A) (k : A -> Outcome B) : Outcome B :=
  match m with
  | Returns a => k a
  | Raises e => Raises e
  end.

Notation "'let!' x ':=' m 'in' k" := (outcome_bind m (fun x => k))
  (at level 10, x name, m at level 100, k at level 200, only parsing).

(** A loaded frame: the labels of its columns, and its rows.  The cells of a
    column the frame does not have are never read. *)
Record Loaded := { labels : list string; body : list Row }.

(** [df[label]] *)
Definition getcol {A} (df : Loaded) (label : string) (cell : Row -> A) : Outcome (list A) :=
  if bool_decide (label ∈ labels df) then Returns (cell <$> body df)
  else Raises (KeyError label).

(** [df[mask]] keeps the columns. *)
Definition loaded_index (df : Loaded) (mask : list bool) : Loaded :=
  {| labels := labels df; body := bool_index (body df) mask |}.

(** Reading a name that may be unbound. *)
Definition read_name {A} (name : string) (binding : option A) : Outcome A :=
  match binding with
  | Some v => Returns v
  | None => Raises (NameError name)
  end.

(** [df = df[df['부서'] == sel]] under [if sel != "전체"] *)
Definition loaded_filter_dept (df : Loaded) (sel : option string) : Outcome Loaded :=
  if dept_filtered sel
  then let! d := getcol df "부서" dept in Returns (loaded_index df (str_eq d sel))
  else Returns df.

(** The loop of lines 111 to 125. *)
Fixpoint page_trend (df_master : Loaded) (sel : option string) (ds : list Timestamp)
  : Outcome (list TrendPoint) :=
  match ds with
  | [] => Returns []
  | d :: ds' =>
      let! hire := getcol df_master "입사일" hire_date in
      let! exit := getcol df_master "퇴사일" exit_date in
      let mask_month := mask_and (ts_le hire d) (mask_or (isna exit) (ts_gt exit d)) in
      let! temp_df := loaded_filter_dept (loaded_index df_master mask_month) sel in
      let! rest := page_trend df_master sel ds' in
      Returns ({| base_month := strftime_Ym d; headcount := length (body temp_df) |} :: rest)
  end.

(** Lines 59 to 127 on the frame [df_master], with the float operations [ops];
    [choice] is the entry picked in the department selector, when there is
    one. *)
Definition page (ops : FloatOps) (df_master : Loaded) (picked : Z) (choice : option string)
  : Outcome Kpis :=
  let selected_dept : option (option string) :=
    if bool_decide ("부서" ∈ labels df_master) then Some choice else None in
  let! hire := getcol df_master "입사일" hire_date in
  let! exit := getcol df_master "퇴사일" exit_date in
  let mask_current :=
    mask_and (ts_le hire (target_date picked))
             (mask_or (isna exit) (ts_ge exit (target_date picked))) in
  let df_current := loaded_index df_master mask_current in
  let! sel := read_name "selected_dept" selected_dept in
  let! df_current := loaded_filter_dept df_current sel in
  let! avg :=
    (if negb (bool_decide (body df_current = []))
     then
       let! h := getcol df_current "입사일" hire_date in
       Returns (round1_fl ops (series_mean_fl ops
                  (div_scalar_fl ops (dt_days (ts_rsub (target_date picked) h)) 365)))
     else Returns (Some 0%Q)) in
  let! exit := getcol df_master "퇴사일" exit_date in
  let mask_exit := mask_and (ts_ge exit (start_of_year picked))
                            (ts_le exit (target_date picked)) in
  let! mask_exit :=
    (if dept_filtered sel
     then let! d := getcol df_master "부서" dept in Returns (mask_and mask_exit (str_eq d sel))
     else Returns mask_exit) in
  let! trend := page_trend df_master sel (date_range picked) in
  Returns {| kpi_total_count := length (body df_current);
             kpi_avg_tenure := avg;
             kpi_exit_count := length (bool_index (body df_master) mask_exit);
             kpi_trend := trend |}.

(** The three columns the page reads. *)
Definition has_page_columns (df : Loaded) : Prop :=
  "입사일" ∈ labels df /\ "퇴사일" ∈ labels df /\ "부서" ∈ labels df.

(** * Calendar facts *)

Lemma year_of_bounds n :
  days_before_year (year_of n) <= n + 719162 < days_before_year (year_of n + 1).
Proof.
  unfold year_of, days_before_year.
  cbv zeta.
  destruct (_ || _) eqn:E.
  - apply orb_true_iff in E. rewrite !Z.eqb_eq in E.
    Z.div_mod_to_equations; lia.
  - apply orb_false_iff in E. rewrite !Z.eqb_neq in E.
    Z.div_mod_to_equations; lia.
Qed.

Lemma days_before_year_succ y :
  days_before_year (y + 1) = days_before_year y + 365 + (if is_leap y then 1 else 0).
Proof.
  unfold days_before_year, is_leap. cbv zeta.
  replace (y + 1 - 1) with y by lia.
  destruct (y mod 4 =? 0) eqn:E4; destruct (y mod 100 =? 0) eqn:E100;
    destruct (y mod 400 =? 0) eqn:E400; simpl;
    rewrite ?Z.eqb_eq, ?Z.eqb_neq in *;
    Z.div_mod_to_equations; lia.
Qed.

Lemma days_before_year_lt y : days_before_year y < days_before_year (y + 1).
Proof. rewrite days_before_year_succ. destruct (is_leap y); lia. Qed.

Lemma days_before_year_mono y z : y <= z -> days_before_year y <= days_before_year z.
Proof.
  intros H. replace z with (y + Z.of_nat (Z.to_nat (z - y))) by lia.
  induction (Z.to_nat (z - y)) as [|k IH].
  - rewrite Z.add_0_r. lia.
  - rewrite Nat2Z.inj_succ.
    replace (y + Z.succ (Z.of_nat k)) with (y + Z.of_nat k + 1) by lia.
    pose proof (days_before_year_lt (y + Z.of_nat k)). lia.
Qed.

Lemma year_of_unique n y :
  days_before_year y <= n + 719162 < days_before_year (y + 1) -> year_of n = y.
Proof.
  intros [H1 H2]. pose proof (year_of_bounds n) as [B1 B2].
  destruct (Z.lt_trichotomy (year_of n) y) as [L|[E|G]]; [|exact E|].
  - pose proof (days_before_year_mono (year_of n + 1) y ltac:(lia)). lia.
  - pose proof (days_before_year_mono (y + 1) (year_of n) ltac:(lia)). lia.
Qed.

Lemma year_of_mono a b : a <= b -> year_of a <= year_of b.
Proof.
  intros H. pose proof (year_of_bounds a) as [A1 A2]. pose proof (year_of_bounds b) as [B1 B2].
  destruct (Z_le_gt_dec (year_of a) (year_of b)) as [L|G]; [exact L|].
  pose proof (days_before_year_mono (year_of b + 1) (year_of a) ltac:(lia)). lia.
Qed.

Lemma year_of_jan1 y : year_of (ymd2ord y 1 1) = y.
Proof.
  apply year_of_unique. unfold ymd2ord, days_before_month. simpl.
  pose proof (days_before_year_lt y). lia.
Qed.

Ltac eval_days_before_month :=
  repeat match goal with
  | |- context [days_before_month ?b ?m] =>
      let v := eval vm_compute in (days_before_month b m) in
      change (days_before_month b m) with v
  | H : context [days_before_month ?b ?m] |- _ =>
      let v := eval vm_compute in (days_before_month b m) in
      change (days_before_month b m) with v in H
  end.

Lemma month_of_yday_spec (leap : bool) yd :
  0 <= yd < 365 + (if leap then 1 else 0) ->
  let m := month_of_yday leap yd in
  1 <= m <= 12 /\
  days_before_month leap m <= yd < days_before_month leap (m + 1).
Proof.
  intros H. cbv zeta. unfold month_of_yday.
  destruct leap;
    repeat match goal with
    | |- context [if ?c <=? ?d then _ else _] => destruct (Z.leb_spec c d)
    end; eval_days_before_month; lia.
Qed.

Lemma days_in_month_diff y m :
  1 <= m <= 12 ->
  days_before_month (is_leap y) (m + 1) = days_before_month (is_leap y) m + days_in_month y m.
Proof.
  intros H. unfold days_in_month.
  assert (m = 1 \/ m = 2 \/ m = 3 \/ m = 4 \/ m = 5 \/ m = 6 \/ m = 7 \/ m = 8 \/
          m = 9 \/ m = 10 \/ m = 11 \/ m = 12) as Hm by lia.
  destruct (is_leap y);
    repeat (destruct Hm as [->|Hm]; [reflexivity|]); subst; reflexivity.
Qed.

Lemma ord2ymd_spec n :
  let '(y, m, d) := ord2ymd n in
  ymd2ord y m d = n /\ 1 <= m <= 12 /\ 1 <= d <= days_in_month y m.
Proof.
  unfold ord2ymd, ymd2ord.
  pose proof (year_of_bounds n) as [B1 B2].
  rewrite days_before_year_succ in B2.
  set (y := year_of n) in *. set (yd := n + 719162 - days_before_year y).
  pose proof (month_of_yday_spec (is_leap y) yd ltac:(unfold yd; lia)) as (Hm & Hlo & Hhi).
  rewrite days_in_month_diff in Hhi by exact Hm.
  split; [unfold yd; lia|]. split; [exact Hm|lia].
Qed.

Lemma month_end_mono_month y m :
  1 <= m <= 11 -> month_end y m < month_end y (m + 1).
Proof.
  intros H. unfold month_end, ymd2ord.
  rewrite (days_in_month_diff y m) by lia.
  assert (0 < days_in_month y (m + 1)).
  { unfold days_in_month.
    assert (m = 1 \/ m = 2 \/ m = 3 \/ m = 4 \/ m = 5 \/ m = 6 \/ m = 7 \/ m = 8 \/
          m = 9 \/ m = 10 \/ m = 11) as Hm by lia.
    destruct (is_leap y);
    repeat (destruct Hm as [->|Hm]; [reflexivity|]); subst; reflexivity. }
  lia.
Qed.

Lemma add_month_end_gt n : n < add_month_end n.
Proof.
  unfold add_month_end. pose proof (ord2ymd_spec n) as H.
  destruct (ord2ymd n) as [[y m] d]. destruct H as (Hn & Hm & Hd).
  destruct (Z.eqb_spec d (days_in_month y m)) as [->|Hne].
  - destruct (Z.eqb_spec m 12) as [->|Hm12].
    + unfold month_end, ymd2ord in *. rewrite days_before_year_succ.
      change (days_in_month (y + 1) 1) with 31.
      change (days_in_month y 12) with 31 in Hn.
      destruct (is_leap y), (is_leap (y + 1)); eval_days_before_month; lia.
    + pose proof (month_end_mono_month y m ltac:(lia)). unfold month_end in *. lia.
  - unfold month_end, ymd2ord in *. lia.
Qed.

Lemma rollforward_ge n : n <= rollforward n.
Proof.
  unfold rollforward. destruct (is_on_offset n); [lia|].
  pose proof (add_month_end_gt n). lia.
Qed.

Lemma rollforward_fixed n : rollforward n = n <-> is_on_offset n = true.
Proof.
  unfold rollforward. destruct (is_on_offset n); [done|].
  pose proof (add_month_end_gt n). split; [lia|done].
Qed.

(** The fuel of [date_range] is enough: more fuel yields no further point. *)
Lemma generate_range_fuel fuel cur end_ :
  (Z.to_nat (end_ - cur + 1) <= fuel)%nat ->
  generate_range (S fuel) cur end_ = generate_range fuel cur end_.
Proof.
  revert cur. induction fuel as [|fuel IH]; intros cur H.
  - cbn. destruct (Z.leb_spec cur end_); [lia|done].
  - cbn [generate_range]. destruct (Z.leb_spec cur end_); [|done].
    f_equal. apply IH. pose proof (add_month_end_gt cur). lia.
Qed.

Lemma generate_range_more_fuel fuel extra cur end_ :
  (Z.to_nat (end_ - cur + 1) <= fuel)%nat ->
  generate_range (fuel + extra) cur end_ = generate_range fuel cur end_.
Proof.
  intros H. induction extra as [|extra IH]; [by rewrite Nat.add_0_r|].
  rewrite Nat.add_succ_r, generate_range_fuel by lia. exact IH.
Qed.

(** [Calendar.date_range] stops because the generator passes [end_], not
    because its fuel runs out. *)
Lemma date_range_fuel start end_ extra :
  generate_range (Z.to_nat (end_ - start + 1) + extra) (rollforward start) end_
  = Calendar.date_range start end_.
Proof.
  apply generate_range_more_fuel. pose proof (rollforward_ge start). lia.
Qed.

(** * The scenario of the specification *)

Example start_trend_day : ymd2ord 2023 1 31 = 19388 /\ ord2ymd 19388 = (2023, 1, 31).
Proof. split; reflexivity. Qed.

Example scenario_headcount :
  total_count scenario (ymd2ord 2024 6 15) (Some ALL) = 2%nat /\
  total_count scenario (ymd2ord 2024 6 16) (Some ALL) = 1%nat /\
  exit_count scenario (ymd2ord 2024 6 16) (Some ALL) = 1%nat /\
  exit_count scenario (ymd2ord 2025 1 2) (Some ALL) = 0%nat.
Proof. repeat split; vm_compute; reflexivity. Qed.

Example scenario_trend :
  trend_data scenario (ymd2ord 2023 4 2) (Some ALL)
  = [ {| base_month := "2023-01"; headcount := 1 |};
      {| base_month := "2023-02"; headcount := 1 |};
      {| base_month := "2023-03"; headcount := 2 |} ].
Proof. vm_compute. reflexivity. Qed.

Example scenario_june_2024 :
  last (trend_data scenario (ymd2ord 2024 6 30) (Some ALL))
  = Some {| base_month := "2024-06"; headcount := 1 |}.
Proof. vm_compute. reflexivity. Qed.

(** * Masks and boolean indexing *)

Lemma mask_and_fmap {A} (f g : A -> bool) (l : list A) :
  mask_and (f <$> l) (g <$> l) = (fun x => f x && g x) <$> l.
Proof. unfold mask_and. induction l as [|x l IH]; cbn; [done|]. by rewrite IH. Qed.

Lemma mask_or_fmap {A} (f g : A -> bool) (l : list A) :
  mask_or (f <$> l) (g <$> l) = (fun x => f x || g x) <$> l.
Proof. unfold mask_or. induction l as [|x l IH]; cbn; [done|]. by rewrite IH. Qed.

Lemma bool_index_fmap {A} (f : A -> bool) (l : list A) :
  bool_index l (f <$> l) = List.filter f l.
Proof. induction l as [|x l IH]; cbn; [done|]. rewrite IH. done. Qed.

Lemma ts_cmp_fmap {A} op (col : A -> option Z) (l : list A) t :
  ts_cmp op (col <$> l) t =
  (fun r => match col r with Some v => op v t | None => false end) <$> l.
Proof. unfold ts_cmp. by rewrite <- list_fmap_compose. Qed.

Lemma isna_fmap {A B} (col : A -> option B) (l : list A) :
  isna (col <$> l) = (fun r => match col r with Some _ => false | None => true end) <$> l.
Proof. unfold isna. by rewrite <- list_fmap_compose. Qed.

Lemma str_eq_fmap (l : list Row) sel :
  str_eq (dept <$> l) sel =
  (fun r => match dept r, sel with
            | Some a, Some b => bool_decide (a = b)
            | _, _ => false
            end) <$> l.
Proof. unfold str_eq. by rewrite <- list_fmap_compose. Qed.

Lemma filter_filter {A} (f g : A -> bool) (l : list A) :
  List.filter g (List.filter f l) = List.filter (fun x => f x && g x) l.
Proof.
  induction l as [|x l IH]; cbn; [done|].
  destruct (f x); cbn; [destruct (g x)|]; by rewrite IH.
Qed.

Lemma fmap_ext_in {A B} (f g : A -> B) (l : list A) :
  (forall x, x ∈ l -> f x = g x) -> f <$> l = g <$> l.
Proof. intros H. apply list_fmap_ext. intros i x Hx. apply H. by eapply list_elem_of_lookup_2. Qed.

(** The two masks are the predicate of the specification, row by row. *)
Lemma mask_current_is_active df picked :
  mask_current df picked = (fun r => is_active Inclusive r (to_datetime picked)) <$> df.
Proof.
  unfold mask_current, ts_le, ts_ge, target_date.
  rewrite !ts_cmp_fmap, isna_fmap, mask_or_fmap, mask_and_fmap.
  apply list_fmap_ext. intros _ r _. unfold is_active.
  destruct (hire_date r), (exit_date r); cbn; done.
Qed.

Lemma mask_month_is_active df d :
  mask_month df d = (fun r => is_active Strict r d) <$> df.
Proof.
  unfold mask_month, ts_le, ts_gt.
  rewrite !ts_cmp_fmap, isna_fmap, mask_or_fmap, mask_and_fmap.
  apply list_fmap_ext. intros _ r _. unfold is_active.
  destruct (hire_date r), (exit_date r); cbn; done.
Qed.

Lemma dept_filter_spec (l : list Row) sel :
  (if dept_filtered sel then bool_index l (str_eq (dept <$> l) sel) else l)
  = List.filter (passes_dept sel) l.
Proof.
  unfold passes_dept. destruct (dept_filtered sel).
  - by rewrite str_eq_fmap, bool_index_fmap.
  - induction l as [|x l IH]; cbn; [done|]. by rewrite <- IH.
Qed.

Lemma df_current_spec df picked sel :
  df_current df picked sel =
  List.filter (fun r => is_active Inclusive r (to_datetime picked) && passes_dept sel r) df.
Proof.
  unfold df_current, df_current_unfiltered.
  rewrite dept_filter_spec, mask_current_is_active, bool_index_fmap.
  apply filter_filter.
Qed.

Lemma temp_df_spec df d sel :
  temp_df df sel d =
  List.filter (fun r => is_active Strict r d && passes_dept sel r) df.
Proof.
  unfold temp_df. cbv zeta.
  rewrite dept_filter_spec, mask_month_is_active, bool_index_fmap.
  apply filter_filter.
Qed.

Lemma to_datetime_lt a b : a < b -> to_datetime a < to_datetime b.
Proof. unfold to_datetime, ns_per_day. lia. Qed.

Lemma ts_day_to_datetime d : ts_day (to_datetime d) = d.
Proof. unfold ts_day, to_datetime. apply Z.div_mul. done. Qed.

Lemma mask_lookup {A} (f : A -> bool) (df : list A) i r :
  df !! i = Some r -> (f <$> df) !! i = Some (f r).
Proof. intros H. by rewrite list_lookup_fmap, H. Qed.

(** * Boundary behaviour of the two masks *)

(** C1: a row whose exit date is the reference date is out of the strict
    mask [mask_month] at that date, and in the inclusive mask [mask_current]
    at the same date as soon as its hire date is not after it. *)
Theorem boundary_asymmetry (df : list Row) (i : nat) (r : Row) (day : Z) :
  df !! i = Some r ->
  exit_date r = Some (to_datetime day) ->
  mask_month df (to_datetime day) !! i = Some false /\
  (forall h, hire_date r = Some h -> h <= to_datetime day ->
             mask_current df day !! i = Some true).
Proof.
  intros Hi He. split.
  - rewrite mask_month_is_active, (mask_lookup _ _ _ _ Hi).
    f_equal. unfold is_active. rewrite He.
    destruct (hire_date r); [|done].
    rewrite andb_false_iff. right. unfold Z.gtb. by rewrite Z.compare_refl.
  - intros h Hh Hle.
    rewrite mask_current_is_active, (mask_lookup _ _ _ _ Hi).
    f_equal. unfold is_active. rewrite Hh, He.
    apply andb_true_iff. split; [by apply Z.leb_le|].
    unfold Z.geb. by rewrite Z.compare_refl.
Qed.

Lemma boundary_asymmetry_witness :
  let r := row_of (Some "A") (Some (datetime 2023 3 1)) (Some (datetime 2024 6 15)) in
  mask_month [r] (datetime 2024 6 15) !! 0%nat = Some false /\
  mask_current [r] (ymd2ord 2024 6 15) !! 0%nat = Some true.
Proof.
  cbv zeta.
  pose proof (boundary_asymmetry
    [row_of (Some "A") (Some (datetime 2023 3 1)) (Some (datetime 2024 6 15))]
    0%nat _ (ymd2ord 2024 6 15) eq_refl eq_refl) as [H1 H2].
  split; [exact H1|].
  apply (H2 (datetime 2023 3 1)); [reflexivity|vm_compute; discriminate].
Defined.

(** C7, as the specification words it, fails: a row whose exit date precedes
    its hire date is not in the inclusive mask on its hire date.  Input: hire
    2024-01-10, exit 2024-01-05, reference date 2024-01-10. *)
Lemma hire_boundary_counterexample :
  ~ (forall (df : list Row) i r day,
       df !! i = Some r -> hire_date r = Some (to_datetime day) ->
       mask_current df day !! i = Some true /\
       mask_current df (day - 1) !! i = Some false).
Proof.
  intros H.
  destruct (H [row_of None (Some (datetime 2024 1 10)) (Some (datetime 2024 1 5))]
              0%nat _ (ymd2ord 2024 1 10) eq_refl eq_refl) as [H1 _].
  vm_compute in H1. discriminate.
Qed.

(** C7 (amended): one day before its hire date no row is in the inclusive
    mask, whatever its exit date; on the hire date itself a row is in the
    mask exactly when its exit date is absent or not before its hire date. *)
Theorem hire_boundary (df : list Row) (i : nat) (r : Row) (day : Z) :
  df !! i = Some r ->
  hire_date r = Some (to_datetime day) ->
  mask_current df (day - 1) !! i = Some false /\
  (mask_current df day !! i = Some true <->
   forall e, exit_date r = Some e -> to_datetime day <= e).
Proof.
  intros Hi Hh.
  rewrite !mask_current_is_active, !(mask_lookup _ _ _ _ Hi).
  unfold is_active. rewrite Hh. split.
  - f_equal. apply andb_false_iff. left. apply Z.leb_gt.
    apply to_datetime_lt. lia.
  - rewrite Z.leb_refl, andb_true_l. split.
    + intros [= H] e He. rewrite He in H. by apply Z.geb_le in H.
    + intros He. f_equal. destruct (exit_date r) as [e|]; [|done].
      apply Z.geb_le, He. done.
Qed.

Lemma hire_boundary_witness :
  let r := row_of (Some "A") (Some (datetime 2022 1 10)) None in
  mask_current [r] (ymd2ord 2022 1 10 - 1) !! 0%nat = Some false /\
  mask_current [r] (ymd2ord 2022 1 10) !! 0%nat = Some true.
Proof.
  cbv zeta.
  destruct (hire_boundary [row_of (Some "A") (Some (datetime 2022 1 10)) None]
                          0%nat _ (ymd2ord 2022 1 10) eq_refl eq_refl) as [H1 H2].
  split; [exact H1|]. apply H2. intros e He. discriminate He.
Defined.


(** * Year-to-date exits *)

Lemma ns_per_day_pos : 0 < ns_per_day.
Proof. done. Qed.

Lemma ts_day_mono a b : a <= b -> ts_day a <= ts_day b.
Proof. intros H. unfold ts_day. apply Z.div_le_mono; [done|exact H]. Qed.

Lemma to_datetime_le_iff j e : to_datetime j <= e <-> j <= ts_day e.
Proof.
  unfold to_datetime, ts_day. pose proof ns_per_day_pos as Hp.
  pose proof (Z.mul_div_le e ns_per_day Hp).
  pose proof (Z.mul_succ_div_gt e ns_per_day Hp). nia.
Qed.

Lemma jan1_le_iff y n : ymd2ord y 1 1 <= n <-> y <= year_of n.
Proof.
  pose proof (year_of_bounds n) as [B1 B2].
  assert (ymd2ord y 1 1 = days_before_year y - 719162) as ->.
  { unfold ymd2ord. eval_days_before_month. lia. }
  split; intros H.
  - destruct (Z_le_gt_dec y (year_of n)) as [L|G]; [exact L|].
    pose proof (days_before_year_mono (year_of n + 1) y ltac:(lia)). lia.
  - pose proof (days_before_year_mono y (year_of n) H). lia.
Qed.

(** The window of the code, from January 1 to the reference date, is the
    window of the specification. *)
Lemma ytd_window picked e :
  (e >=? start_of_year picked) && (e <=? target_date picked)
  = (ts_year e =? ts_year (to_datetime picked)) && (e <=? to_datetime picked).
Proof.
  unfold start_of_year, target_date, datetime.
  destruct (Z.leb_spec e (to_datetime picked)) as [Hle|Hgt];
    [rewrite !andb_true_r|by rewrite !andb_false_r].
  apply eq_true_iff_eq. rewrite Z.geb_le, Z.eqb_eq, to_datetime_le_iff, jan1_le_iff.
  unfold ts_year. pose proof (year_of_mono _ _ (ts_day_mono _ _ Hle)). lia.
Qed.

Lemma mask_exit_spec df picked sel :
  mask_exit df picked sel =
  (fun r => exit_in_ytd picked r && passes_dept sel r) <$> df.
Proof.
  unfold mask_exit, ts_le, ts_ge. cbv zeta.
  rewrite !ts_cmp_fmap, mask_and_fmap.
  assert ((fun r : Row =>
             match exit_date r with Some v => v >=? start_of_year picked | None => false end
             && match exit_date r with Some v => v <=? target_date picked | None => false end)
          <$> df = exit_in_ytd picked <$> df) as ->.
  { apply list_fmap_ext. intros _ r _. unfold exit_in_ytd.
    destruct (exit_date r) as [e|]; [apply ytd_window|done]. }
  unfold passes_dept. destruct (dept_filtered sel).
  - by rewrite str_eq_fmap, mask_and_fmap.
  - apply list_fmap_ext. intros _ r _. by rewrite andb_true_r.
Qed.

(** C4: the year-to-date exit count is the number of rows of the whole roster
    whose exit date lies in the reference date's calendar year, not after the
    reference date, and which pass the department filter; every counted row
    has its exit date in that year and in the window of the code. *)
Theorem ytd_exits_post (df : list Row) (picked : Z) (sel : option string) :
  exit_count df picked sel
  = length (List.filter (fun r => exit_in_ytd picked r && passes_dept sel r) df)
  /\ forall r, r ∈ bool_index df (mask_exit df picked sel) ->
       exists e, exit_date r = Some e /\
                 ts_year e = ts_year (target_date picked) /\
                 start_of_year picked <= e <= target_date picked.
Proof.
  unfold exit_count. rewrite mask_exit_spec, bool_index_fmap. split; [done|].
  intros r Hr. apply list_elem_of_In, List.filter_In in Hr as [_ Hr].
  apply andb_true_iff in Hr as [Hr _]. unfold exit_in_ytd in Hr.
  destruct (exit_date r) as [e|]; [|done]. exists e. split; [done|].
  rewrite <- ytd_window in Hr. pose proof Hr as Hw.
  rewrite ytd_window in Hr. apply andb_true_iff in Hr as [Hy _].
  apply andb_true_iff in Hw as [H1 H2].
  apply Z.eqb_eq in Hy. apply Z.geb_le in H1. apply Z.leb_le in H2.
  unfold target_date in *. done.
Qed.

(** * Rows without a hire date *)

Lemma filter_insert_row {A} (f : A -> bool) (l1 l2 : list A) (r : A) :
  List.filter f (l1 ++ r :: l2)
  = List.filter f l1 ++ (if f r then [r] else []) ++ List.filter f l2.
Proof. rewrite List.filter_app. cbn. by destruct (f r). Qed.

Lemma filter_drop_row {A} (f : A -> bool) (l1 l2 : list A) (r : A) :
  f r = false -> List.filter f (l1 ++ r :: l2) = List.filter f (l1 ++ l2).
Proof. intros H. by rewrite filter_insert_row, H, List.filter_app. Qed.

Lemma is_active_no_hire mode r t : hire_date r = None -> is_active mode r t = false.
Proof. intros H. unfold is_active. by rewrite H. Qed.

Lemma df_current_no_hire l1 r l2 picked sel :
  hire_date r = None ->
  df_current (l1 ++ r :: l2) picked sel = df_current (l1 ++ l2) picked sel.
Proof.
  intros H. rewrite !df_current_spec. apply filter_drop_row.
  by rewrite is_active_no_hire.
Qed.

Lemma temp_df_no_hire l1 r l2 sel d :
  hire_date r = None ->
  temp_df (l1 ++ r :: l2) sel d = temp_df (l1 ++ l2) sel d.
Proof.
  intros H. rewrite !temp_df_spec. apply filter_drop_row.
  by rewrite is_active_no_hire.
Qed.

(** C3, as the specification words it, fails for the exit count: a row with
    no hire date and an exit date inside the window is counted.  Input: the
    one-row roster (hire NaT, exit 2024-03-01), reference date 2024-06-15,
    filter ALL. *)
Lemma no_hire_counterexample :
  ~ (forall l1 r l2 picked sel,
       hire_date r = None ->
       total_count (l1 ++ r :: l2) picked sel = total_count (l1 ++ l2) picked sel /\
       trend_data (l1 ++ r :: l2) picked sel = trend_data (l1 ++ l2) picked sel /\
       avg_tenure (l1 ++ r :: l2) picked sel = avg_tenure (l1 ++ l2) picked sel /\
       exit_count (l1 ++ r :: l2) picked sel = exit_count (l1 ++ l2) picked sel).
Proof.
  intros H.
  destruct (H [] (row_of (Some "A") None (Some (datetime 2024 3 1))) []
              (ymd2ord 2024 6 15) (Some ALL) eq_refl) as (_ & _ & _ & He).
  vm_compute in He. discriminate.
Qed.

(** C3 (amended): a row without a hire date is in neither [df_current] nor any
    [temp_df]; removing it changes none of the head count, the trend and the
    average tenure.  The exit count does not read the hire date: the row adds
    one to it exactly when its exit date is in the window and it passes the
    department filter. *)
Theorem no_hire_excluded (l1 l2 : list Row) (r : Row) (picked : Z) (sel : option string) :
  hire_date r = None ->
  (r ∉ df_current (l1 ++ r :: l2) picked sel) /\
  total_count (l1 ++ r :: l2) picked sel = total_count (l1 ++ l2) picked sel /\
  trend_data (l1 ++ r :: l2) picked sel = trend_data (l1 ++ l2) picked sel /\
  avg_tenure (l1 ++ r :: l2) picked sel = avg_tenure (l1 ++ l2) picked sel /\
  exit_count (l1 ++ r :: l2) picked sel
  = (exit_count (l1 ++ l2) picked sel
     + if exit_in_ytd picked r && passes_dept sel r then 1 else 0)%nat.
Proof.
  intros H. split; [|split; [|split; [|split]]].
  - rewrite df_current_spec. intros Hin.
    apply list_elem_of_In, List.filter_In in Hin as [_ Hin].
    by rewrite is_active_no_hire in Hin.
  - unfold total_count. by rewrite df_current_no_hire.
  - unfold trend_data. apply list_fmap_ext. intros _ d _.
    by rewrite temp_df_no_hire.
  - unfold avg_tenure, tenure_years. by rewrite df_current_no_hire.
  - unfold exit_count. rewrite !mask_exit_spec, !bool_index_fmap.
    rewrite filter_insert_row, List.filter_app, !length_app.
    destruct (_ && _); cbn; lia.
Qed.

Lemma no_hire_excluded_witness :
  let r := row_of (Some "A") None (Some (datetime 2024 3 1)) in
  total_count [r] (ymd2ord 2024 6 15) (Some ALL) = total_count [] (ymd2ord 2024 6 15) (Some ALL).
Proof.
  cbv zeta.
  exact (proj1 (proj2 (no_hire_excluded [] [] (row_of (Some "A") None (Some (datetime 2024 3 1)))
                         (ymd2ord 2024 6 15) (Some ALL) eq_refl))).
Defined.

(** * Distinct departments *)

Section Unique.
Context {A : Type} `{EqDecision A}.

Lemma elem_of_unique_from (seen s : list A) x :
  x ∈ unique_from seen s <-> x ∈ s /\ x ∉ seen.
Proof.
  revert seen. induction s as [|y s IH]; intros seen; cbn.
  - rewrite !elem_of_nil. tauto.
  - destruct (decide (y ∈ seen)) as [Hy|Hy].
    + rewrite IH, elem_of_cons. split; [tauto|].
      intros [[->|Hx] Hn]; [done|tauto].
    + rewrite !elem_of_cons, IH, elem_of_cons.
      destruct (decide (x = y)) as [->|Hne]; [tauto|]. tauto.
Qed.

Lemma NoDup_unique_from (seen s : list A) : NoDup (unique_from seen s).
Proof.
  revert seen. induction s as [|y s IH]; intros seen; cbn; [constructor|].
  destruct (decide (y ∈ seen)); [apply IH|].
  constructor; [|apply IH].
  rewrite elem_of_unique_from, elem_of_cons. tauto.
Qed.

Lemma elem_of_unique (s : list A) x : x ∈ unique s <-> x ∈ s.
Proof. unfold unique. rewrite elem_of_unique_from, elem_of_nil. tauto. Qed.

Lemma NoDup_unique (s : list A) : NoDup (unique s).
Proof. apply NoDup_unique_from. Qed.

(** Exactly one entry of a duplicate-free list equals a given member. *)
Lemma sum_indicator (D : list A) x :
  NoDup D -> x ∈ D ->
  sum_list_with (fun d => if bool_decide (x = d) then 1%nat else 0%nat) D = 1%nat.
Proof.
  induction 1 as [|d D Hd HD IH]; intros Hx; [by apply elem_of_nil in Hx|].
  cbn. apply elem_of_cons in Hx. case_bool_decide as Hxd.
  - subst d. f_equal.
    clear IH Hx. induction D as [|d' D IH]; [done|].
    cbn. apply not_elem_of_cons in Hd as [Hne Hd].
    rewrite bool_decide_eq_false_2 by done. apply IH; [done|].
    by apply NoDup_cons in HD as [_ HD].
  - destruct Hx as [->|Hx]; [done|]. by apply IH.
Qed.
End Unique.

Lemma sum_list_with_zero {K} (g : K -> nat) (D : list K) :
  (forall d, g d = 0%nat) -> sum_list_with g D = 0%nat.
Proof. intros H. induction D as [|d D IH]; [done|]. cbn. by rewrite H, IH. Qed.

Lemma count_by_key_cons {A K} `{EqDecision K} (f : A -> bool) (k : A -> K)
    (x : A) (l : list A) (D : list K) :
  sum_list_with
    (fun d => length (List.filter (fun y => f y && bool_decide (k y = d)) (x :: l))) D
  = (sum_list_with (fun d => if f x && bool_decide (k x = d) then 1 else 0) D
     + sum_list_with
         (fun d => length (List.filter (fun y => f y && bool_decide (k y = d)) l)) D)%nat.
Proof.
  induction D as [|d D IHD]; [done|].
  cbn [sum_list_with]. rewrite IHD. cbn [List.filter].
  destruct (f x && bool_decide (k x = d)); cbn [length]; lia.
Qed.

(** Grouping by a key splits a filtered count over the distinct keys. *)
Lemma filter_count_by_key {A K} `{EqDecision K} (f : A -> bool) (k : A -> K)
    (l : list A) (D : list K) :
  NoDup D ->
  (forall x, x ∈ l -> f x = true -> k x ∈ D) ->
  length (List.filter f l)
  = sum_list_with
      (fun d => length (List.filter (fun x => f x && bool_decide (k x = d)) l)) D.
Proof.
  intros HD. induction l as [|x l IH]; intros Hk.
  - cbn. by rewrite sum_list_with_zero.
  - rewrite count_by_key_cons.
    rewrite <- IH by (intros y Hy; apply Hk; by right).
    cbn [List.filter]. destruct (f x) eqn:Hfx; cbn [andb length].
    + rewrite sum_indicator; [done|done|]. apply Hk; [by left|done].
    + by rewrite sum_list_with_zero.
Qed.

Lemma sum_list_with_ext_in {K} (g h : K -> nat) (D : list K) :
  (forall d, d ∈ D -> g d = h d) -> sum_list_with g D = sum_list_with h D.
Proof.
  induction D as [|d D IH]; intros H; [done|].
  cbn. rewrite H by left. rewrite IH; [done|]. intros d' Hd'. apply H. by right.
Qed.

Lemma passes_dept_ALL r : passes_dept (Some ALL) r = true.
Proof. done. Qed.

Lemma passes_dept_named s r :
  s <> ALL -> passes_dept (Some s) r = bool_decide (dept r = Some s).
Proof.
  intros Hs. unfold passes_dept, dept_filtered.
  rewrite bool_decide_eq_false_2 by congruence. cbn.
  destruct (dept r) as [a|]; [|done].
  apply eq_true_iff_eq. rewrite !bool_decide_eq_true. split; congruence.
Qed.

Lemma passes_dept_nan r : passes_dept None r = false.
Proof. unfold passes_dept. cbn. by destruct (dept r). Qed.

(** * Head count by department *)

(** C5, as the specification words it, fails when a department carries the
    name of the selector's ALL entry: that filter value disables the filter.
    Input: two active rows, departments "전체" and "A", reference date
    2024-06-15: the head count is 2, the sum over the departments is 2 + 1. *)
Lemma dept_partition_counterexample :
  ~ (forall df picked,
       total_count df picked (Some ALL)
       = sum_list_with (fun d => total_count df picked d) (unique (dept <$> df))).
Proof.
  intros H.
  specialize (H [row_of (Some ALL) (Some (datetime 2022 1 10)) None;
                 row_of (Some "A") (Some (datetime 2022 1 10)) None]
                (ymd2ord 2024 6 15)).
  vm_compute in H. discriminate.
Qed.

(** C5 (amended): when no row's department is the ALL entry and every row
    active at the reference date has a department, the head count under ALL
    is the sum of the head counts under each distinct department of the roster. *)
Theorem dept_partition (df : list Row) (picked : Z) :
  (forall r, r ∈ df -> dept r <> Some ALL) ->
  (forall r, r ∈ df -> is_active Inclusive r (to_datetime picked) = true ->
             dept r <> None) ->
  total_count df picked (Some ALL)
  = sum_list_with (fun d => total_count df picked d) (unique (dept <$> df)).
Proof.
  intros Hall Hnan. unfold total_count. rewrite df_current_spec.
  rewrite (List.filter_ext _ (fun r => is_active Inclusive r (to_datetime picked)))
    by (intros r; by rewrite passes_dept_ALL, andb_true_r).
  rewrite (filter_count_by_key _ dept df (unique (dept <$> df))).
  - apply sum_list_with_ext_in. intros d Hd.
    rewrite df_current_spec. f_equal. apply List.filter_ext_in. intros r Hr.
    apply list_elem_of_In in Hr.
    apply elem_of_unique, list_elem_of_fmap in Hd as (r0 & -> & Hr0).
    destruct (dept r0) as [s|] eqn:Hs.
    + rewrite passes_dept_named; [done|].
      intros ->. by apply (Hall r0).
    + rewrite passes_dept_nan, andb_false_r.
      destruct (is_active Inclusive r (to_datetime picked)) eqn:Ha; [|done].
      cbn. apply bool_decide_eq_false_2. by apply Hnan.
  - apply NoDup_unique.
  - intros r Hr _. apply elem_of_unique, list_elem_of_fmap. by exists r.
Qed.

Lemma dept_partition_witness :
  let df := [row_of (Some "A") (Some (datetime 2022 1 10)) None;
             row_of (Some "B") (Some (datetime 2023 3 1)) (Some (datetime 2024 6 15));
             row_of (Some "A") (Some (datetime 2023 5 2)) None] in
  total_count df (ymd2ord 2024 6 15) (Some ALL)
  = sum_list_with (fun d => total_count df (ymd2ord 2024 6 15) d) (unique (dept <$> df)).
Proof.
  cbv zeta. apply dept_partition.
  - intros r Hr. rewrite !elem_of_cons, elem_of_nil in Hr.
    destruct Hr as [->|[->|[->|[]]]]; discriminate.
  - intros r Hr _. rewrite !elem_of_cons, elem_of_nil in Hr.
    destruct Hr as [->|[->|[->|[]]]]; discriminate.
Defined.


(** * Average tenure *)

Lemma omap_id_Some {A} (l : list A) : omap id (Some <$> l) = l.
Proof. induction l as [|x l IH]; cbn; [done|]. by rewrite IH. Qed.

Lemma active_set_hired df picked sel r :
  r ∈ active_set df picked sel -> exists h, hire_date r = Some h.
Proof.
  intros Hr. apply list_elem_of_In, List.filter_In in Hr as [_ Hr].
  apply andb_true_iff in Hr as [Hr _]. unfold is_active in Hr.
  destruct (hire_date r) as [h|]; [by exists h|done].
Qed.

(** No cell of the tenure column is NaN: every row of [df_current] has a
    hire date. *)
Lemma tenure_years_values df picked sel :
  tenure_years df picked sel
  = Some <$> ((fun r => inject_Z (tenure_days (to_datetime picked) r) / inject_Z 365)%Q
                <$> active_set df picked sel).
Proof.
  unfold tenure_years, div_scalar, dt_days, ts_rsub, target_date.
  rewrite df_current_spec. fold (active_set df picked sel).
  rewrite <- !list_fmap_compose. apply fmap_ext_in. intros r Hr.
  apply active_set_hired in Hr as [h Hh]. cbn. unfold tenure_days. by rewrite Hh.
Qed.

Lemma avg_tenure_nonempty df picked sel :
  active_set df picked sel <> [] ->
  avg_tenure df picked sel
  = Some (round1q (mean_tenure_years (active_set df picked sel) (to_datetime picked))).
Proof.
  intros Hne. unfold avg_tenure. rewrite tenure_years_values, df_current_spec.
  fold (active_set df picked sel).
  rewrite bool_decide_eq_false_2 by done. cbn [negb].
  unfold series_mean. rewrite omap_id_Some.
  destruct (active_set df picked sel) as [|r l] eqn:E; [done|].
  unfold round1, mean_tenure_years.
  cbn [fmap list_fmap option_fmap option_map length]. by rewrite length_fmap.
Qed.

Lemma avg_tenure_empty df picked sel :
  active_set df picked sel = [] -> avg_tenure df picked sel = Some 0%Q.
Proof.
  intros He. unfold avg_tenure. rewrite df_current_spec.
  fold (active_set df picked sel). by rewrite He.
Qed.

(** Rounding to the nearest integer moves a number by at most one half. *)
Lemma rint_close q : (Qabs (inject_Z (rint q) - q) <= 1 # 2)%Q.
Proof.
  pose proof (Qfloor_le q) as Hlo. pose proof (Qlt_floor q) as Hhi.
  rewrite inject_Z_plus in Hhi. change (inject_Z 1) with 1%Q in Hhi.
  apply Qabs_Qle_condition. unfold rint.
  destruct (q - inject_Z (Qfloor q) ?= 1 # 2)%Q eqn:E.
  - apply Qeq_alt in E. destruct (Z.even (Qfloor q)).
    + split; lra.
    + rewrite inject_Z_plus. change (inject_Z 1) with 1%Q. split; lra.
  - apply Qlt_alt in E. split; lra.
  - apply Qgt_alt in E. rewrite inject_Z_plus. change (inject_Z 1) with 1%Q.
    split; lra.
Qed.

Lemma round1q_close q : (Qabs (round1q q - q) <= 1 # 20)%Q.
Proof.
  pose proof (rint_close (q * 10)) as H.
  apply Qabs_Qle_condition in H. apply Qabs_Qle_condition.
  unfold round1q. set (z := inject_Z (rint (q * 10))) in *.
  unfold Qdiv. change (/ 10)%Q with (1 # 10)%Q. split; lra.
Qed.

(** * The trend series *)

(** A window of one day holds that day when it is a month end, and nothing
    otherwise. *)
Lemma date_range_single d :
  Calendar.date_range d d = if is_on_offset d then [d] else [].
Proof.
  unfold Calendar.date_range. replace (d - d + 1) with 1 by lia.
  change (Z.to_nat 1) with 1%nat. cbn [generate_range].
  unfold rollforward. destruct (is_on_offset d).
  - by rewrite Z.leb_refl.
  - pose proof (add_month_end_gt d).
    destruct (Z.leb_spec (add_month_end d) d); [lia|done].
Qed.

Lemma date_range_before_start picked :
  target_date picked < start_trend_date ->
  date_range picked
  = if is_on_offset picked then [target_date picked] else [].
Proof.
  intros H. unfold date_range, pd_date_range.
  apply Z.ltb_lt in H. rewrite H. unfold target_date.
  rewrite ts_day_to_datetime, date_range_single.
  by destruct (is_on_offset picked).
Qed.

(** From the configured start on, the series begins with the point 2023-01. *)
Lemma date_range_from_start picked :
  start_trend_date <= target_date picked ->
  exists rest, date_range picked = start_trend_date :: rest.
Proof.
  intros H. unfold date_range, pd_date_range.
  destruct (Z.ltb_spec (target_date picked) start_trend_date) as [Hlt|_]; [lia|].
  unfold start_trend_date, datetime, target_date in *.
  rewrite !ts_day_to_datetime. apply to_datetime_le_iff in H.
  rewrite ts_day_to_datetime in H.
  unfold Calendar.date_range.
  destruct (Z.to_nat (picked - ymd2ord 2023 1 31 + 1)) as [|fuel] eqn:E; [lia|].
  cbn [generate_range].
  change (rollforward (ymd2ord 2023 1 31)) with (ymd2ord 2023 1 31).
  destruct (Z.leb_spec (ymd2ord 2023 1 31) picked); [|lia].
  cbn [fmap list_fmap]. by eexists.
Qed.

(** C2, as the specification words it, fails: before the configured start a
    reference date that is not a month end yields an empty series.  Input:
    any roster, reference date 2022-05-15. *)
Lemma trend_degenerate_counterexample :
  ~ (forall df picked sel,
       target_date picked < start_trend_date ->
       length (trend_data df picked sel) = 1%nat).
Proof.
  intros H. specialize (H [] (ymd2ord 2022 5 15) (Some ALL)).
  vm_compute in H. specialize (H eq_refl). discriminate.
Qed.

(** C2 (amended): before the configured start the series is the single point
    at the reference date when that date is the last day of its month, and
    is empty otherwise. *)
Theorem trend_degenerate (df : list Row) (picked : Z) (sel : option string) :
  target_date picked < start_trend_date ->
  trend_data df picked sel
  = if is_on_offset picked
    then [ {| base_month := strftime_Ym (target_date picked);
              headcount := length (temp_df df sel (target_date picked)) |} ]
    else [].
Proof.
  intros H. unfold trend_data. rewrite (date_range_before_start _ H).
  by destruct (is_on_offset picked).
Qed.

Lemma trend_degenerate_witness :
  trend_data [row_of (Some "A") (Some (datetime 2022 1 10)) None]
             (ymd2ord 2022 5 31) (Some ALL)
  = [ {| base_month := "2022-05"; headcount := 1 |} ]
  /\ trend_data [row_of (Some "A") (Some (datetime 2022 1 10)) None]
                (ymd2ord 2022 5 15) (Some ALL) = [].
Proof.
  split.
  - rewrite (trend_degenerate _ (ymd2ord 2022 5 31) _); [|vm_compute; reflexivity].
    vm_compute. reflexivity.
  - rewrite (trend_degenerate _ (ymd2ord 2022 5 15) _); [|vm_compute; reflexivity].
    vm_compute. reflexivity.
Defined.


(** * Runs of the render pass *)

Lemma wp_ret {A} (a : A) Q σ : Q a σ -> wp (ret a) Q σ.
Proof. done. Qed.

Lemma wp_bind {A B} (m : M A) (k : A -> M B) Q σ :
  wp m (fun a σ' => wp (k a) Q σ') σ -> wp (bind m k) Q σ.
Proof. unfold wp, bind. by destruct (m σ) as [[a σ']|]. Qed.

Lemma wp_mono {A} (m : M A) (Q Q' : A -> Store -> Prop) σ :
  wp m Q σ -> (forall a σ', Q a σ' -> Q' a σ') -> wp m Q' σ.
Proof. unfold wp. destruct (m σ) as [[a σ']|]; [|done]. intros H HQ. by apply HQ. Qed.

Lemma wp_load l f Q (σ : Store) : σ !! l = Some f -> Q f σ -> wp (load l) Q σ.
Proof. intros H HQ. unfold wp, load. by rewrite H. Qed.

Lemma wp_alloc f Q (σ : Store) :
  (forall l, σ !! l = None -> Q l (<[l := f]> σ)) -> wp (alloc f) Q σ.
Proof.
  intros H. unfold wp, alloc. cbn. apply H.
  apply not_elem_of_dom, is_fresh.
Qed.

Lemma wp_getitem_mask l mask f Q (σ : Store) :
  σ !! l = Some f ->
  (forall l', σ !! l' = None ->
     Q l' (<[l' := {| rows := bool_index (rows f) mask;
                      tenure_col := (fun c => bool_index c mask) <$> tenure_col f |}]> σ)) ->
  wp (getitem_mask l mask) Q σ.
Proof.
  intros H HQ. unfold getitem_mask. apply wp_bind, (wp_load _ _ _ _ H).
  by apply wp_alloc.
Qed.

Lemma wp_copy l f Q (σ : Store) :
  σ !! l = Some f ->
  (forall l', σ !! l' = None -> Q l' (<[l' := f]> σ)) ->
  wp (copy l) Q σ.
Proof.
  intros H HQ. unfold copy. apply wp_bind, (wp_load _ _ _ _ H). by apply wp_alloc.
Qed.

Lemma wp_setitem_tenure l col f Q (σ : Store) :
  σ !! l = Some f ->
  Q tt (<[l := {| rows := rows f; tenure_col := Some col |}]> σ) ->
  wp (setitem_tenure l col) Q σ.
Proof. intros H HQ. unfold wp, setitem_tenure. by rewrite H. Qed.

Lemma wp_getitem_tenure l f col Q (σ : Store) :
  σ !! l = Some f -> tenure_col f = Some col -> Q col σ ->
  wp (getitem_tenure l) Q σ.
Proof.
  intros H Hc HQ. unfold getitem_tenure. apply wp_bind, (wp_load _ _ _ _ H).
  unfold wp. by rewrite Hc.
Qed.

(** The department filter leaves the frames already in the store alone and
    yields a frame holding the rows that pass. *)
Lemma wp_filter_dept l sel f Q (σ : Store) :
  σ !! l = Some f ->
  (forall l' σ' f',
     σ ⊆ σ' -> σ' !! l' = Some f' ->
     (l' = l \/ σ !! l' = None) ->
     rows f' = List.filter (passes_dept sel) (rows f) ->
     Q l' σ') ->
  wp (filter_dept l sel) Q σ.
Proof.
  intros H HQ. unfold filter_dept.
  pose proof (dept_filter_spec (rows f) sel) as Hspec.
  destruct (dept_filtered sel).
  - apply wp_bind, (wp_load _ _ _ _ H), (wp_getitem_mask _ _ _ _ _ H).
    intros l' Hl'. eapply HQ.
    + by apply insert_subseteq.
    + apply lookup_insert_eq.
    + by right.
    + done.
  - apply wp_ret. eapply HQ; [done|exact H|by left|done].
Qed.

Lemma temp_df_rows (df : list Row) sel d :
  List.filter (passes_dept sel) (bool_index df (mask_month df d)) = temp_df df sel d.
Proof. unfold temp_df. cbv zeta. by rewrite dept_filter_spec. Qed.

Lemma wp_trend_loop master sel df ds (σ : Store) :
  σ !! master = Some df ->
  wp (trend_loop master sel ds)
     (fun res σ' =>
        σ ⊆ σ' /\
        res = (fun d => {| base_month := strftime_Ym d;
                           headcount := length (temp_df (rows df) sel d) |}) <$> ds)
     σ.
Proof.
  revert σ. induction ds as [|d ds IH]; intros σ Hm; cbn [trend_loop].
  - by apply wp_ret.
  - apply wp_bind, (wp_load _ _ _ _ Hm), wp_bind, (wp_getitem_mask _ _ _ _ _ Hm).
    intros t Ht. apply wp_bind.
    eapply wp_filter_dept; [apply lookup_insert_eq|].
    intros t' σ' f' Hsub Ht' _ Hrows. cbn [rows] in Hrows.
    apply wp_bind, (wp_load _ _ _ _ Ht'), wp_bind.
    assert (σ ⊆ σ') as Hσ by (etrans; [by apply insert_subseteq|done]).
    eapply wp_mono; [apply IH; by eapply lookup_weaken|].
    intros rest σ'' [Hsub' ->]. apply wp_ret. split; [by etrans|].
    cbn [fmap list_fmap]. by rewrite Hrows, temp_df_rows.
Qed.

(** A render pass returns the four results of the pure pipeline and leaves
    every frame that was in the store as it was. *)
Lemma wp_render master df picked sel (σ : Store) :
  σ !! master = Some df ->
  wp (render master picked sel)
     (fun k σ' =>
        σ ⊆ σ' /\
        k = {| kpi_total_count := total_count (rows df) picked sel;
               kpi_avg_tenure := avg_tenure (rows df) picked sel;
               kpi_exit_count := exit_count (rows df) picked sel;
               kpi_trend := trend_data (rows df) picked sel |})
     σ.
Proof.
  intros Hm. unfold render.
  apply wp_bind, (wp_load _ _ _ _ Hm), wp_bind, (wp_getitem_mask _ _ _ _ _ Hm).
  intros tmp Htmp. apply wp_bind.
  eapply wp_copy; [apply lookup_insert_eq|]. intros cur0 Hcur0.
  set (σ1 := <[tmp := _]> σ) in *.
  assert (σ ⊆ σ1) as H01 by (by apply insert_subseteq).
  apply wp_bind. eapply wp_filter_dept; [apply lookup_insert_eq|].
  intros cur σ3 c H23 Hc Hfresh Hrows. cbn [rows] in Hrows.
  assert (σ ⊆ σ3) as H03.
  { etrans; [exact H01|]. etrans; [|exact H23]. by apply insert_subseteq. }
  assert (σ !! cur = None) as Hcur.
  { destruct Hfresh as [->|Hn].
    - by eapply lookup_weaken_None.
    - apply lookup_insert_None in Hn as [Hn _]. by eapply lookup_weaken_None. }
  assert (rows c = df_current (rows df) picked sel) as Hdfc.
  { rewrite Hrows. unfold df_current, df_current_unfiltered. by rewrite dept_filter_spec. }
  apply wp_bind, (wp_load _ _ _ _ Hc), wp_bind.
  apply (wp_mono _
    (fun avg σ' => σ ⊆ σ' /\ avg = avg_tenure (rows df) picked sel)).
  - unfold avg_tenure, tenure_years. rewrite <- Hdfc.
    destruct (negb (bool_decide (rows c = []))).
    + apply wp_bind. eapply wp_setitem_tenure; [exact Hc|].
      apply wp_bind. eapply wp_getitem_tenure; [apply lookup_insert_eq|done|].
      apply wp_ret. split; [|done]. by apply insert_subseteq_r.
    + by apply wp_ret.
  - intros avg σ4 [H04 ->].
    assert (σ4 !! master = Some df) as Hm4 by (by eapply lookup_weaken).
    apply wp_bind, (wp_load _ _ _ _ Hm4), wp_bind, (wp_getitem_mask _ _ _ _ _ Hm4).
    intros ex Hex. apply wp_bind.
    eapply wp_load; [apply lookup_insert_eq|]. cbn [rows].
    apply wp_bind.
    assert (σ ⊆ <[ex := {| rows := bool_index (rows df) (mask_exit (rows df) picked sel);
                           tenure_col := (fun c0 => bool_index c0 (mask_exit (rows df) picked sel))
                                           <$> tenure_col df |}]> σ4) as H05.
    { etrans; [exact H04|]. by apply insert_subseteq. }
    eapply wp_mono;
      [apply (wp_trend_loop master sel df); exact (lookup_weaken _ _ _ _ Hm H05)|].
    intros trend σ6 [H56 ->]. apply wp_ret. split; [by etrans|].
    unfold total_count. by rewrite Hdfc.
Qed.

Lemma render_returns master df picked sel (σ : Store) :
  σ !! master = Some df ->
  exists σ',
    render master picked sel σ
    = Some ({| kpi_total_count := total_count (rows df) picked sel;
               kpi_avg_tenure := avg_tenure (rows df) picked sel;
               kpi_exit_count := exit_count (rows df) picked sel;
               kpi_trend := trend_data (rows df) picked sel |}, σ')
    /\ σ ⊆ σ'.
Proof.
  intros Hm. pose proof (wp_render master df picked sel σ Hm) as H.
  unfold wp in H. destruct (render master picked sel σ) as [[k σ']|]; [|done].
  destruct H as [Hsub ->]. by exists σ'.
Qed.

(** The assignment of the tenure column is a write: the frame it is applied
    to changes. *)
Lemma setitem_tenure_writes l f col (σ : Store) :
  σ !! l = Some f ->
  exists σ', setitem_tenure l col σ = Some (tt, σ') /\
             σ' !! l = Some {| rows := rows f; tenure_col := Some col |}.
Proof.
  intros H. unfold setitem_tenure. rewrite H. eexists. split; [done|].
  apply lookup_insert_eq.
Qed.

(** * Frame property of the render pass *)

(** C9: a render pass returns, and in the store it leaves the master roster,
    and every other frame that was there before, is the frame it was: the
    tenure column is written to the copy [df_current] only. *)
Theorem roster_immutable (master : nat) (df : Frame) (picked : Z)
    (sel : option string) (σ : Store) :
  σ !! master = Some df ->
  exists k σ',
    render master picked sel σ = Some (k, σ') /\
    σ' !! master = Some df /\
    (forall l f, σ !! l = Some f -> σ' !! l = Some f).
Proof.
  intros Hm. destruct (render_returns master df picked sel σ Hm) as (σ' & Hr & Hsub).
  eexists _, σ'. split; [exact Hr|]. split.
  - by eapply lookup_weaken.
  - intros l f Hl. by eapply lookup_weaken.
Qed.

Lemma roster_immutable_witness :
  let df := {| rows := [row_of (Some "A") (Some (datetime 2022 1 10)) None];
               tenure_col := None |} in
  exists k σ',
    render 0%nat (ymd2ord 2024 6 15) (Some ALL) {[ 0%nat := df ]} = Some (k, σ') /\
    σ' !! 0%nat = Some df /\
    (forall l f, ({[ 0%nat := df ]} : Store) !! l = Some f -> σ' !! l = Some f).
Proof.
  cbv zeta. apply roster_immutable. vm_compute. reflexivity.
Defined.

Lemma temp_df_nil sel d : temp_df [] sel d = [].
Proof. by rewrite temp_df_spec. Qed.

(** * The loader's column aliases *)

Lemma rename_map_inv c v : rename_map !! c = Some v -> (c, v) ∈ rename_pairs.
Proof. apply elem_of_list_to_map_2. Qed.

Lemma rename_map_canonical c v : rename_map !! c = Some v -> rename_map !! v = Some v.
Proof.
  intros H. apply rename_map_inv in H. unfold rename_pairs in H.
  repeat (apply elem_of_cons in H as [[= -> ->]|H]; [by vm_compute|]).
  by apply elem_of_nil in H.
Qed.

(** X1: renaming is idempotent: every value of [rename_map] is mapped to
    itself, so a frame whose labels were renamed is left as it is by a second
    renaming. *)
Theorem rename_columns_idempotent (cols : list string) :
  rename_columns (rename_columns cols) = rename_columns cols.
Proof.
  unfold rename_columns. rewrite <- list_fmap_compose.
  apply list_fmap_ext. intros _ c _. unfold compose, rename_column.
  destruct (rename_map !! c) as [v|] eqn:E.
  - change (default c (Some v)) with v. by rewrite (rename_map_canonical _ _ E).
  - change (default c None) with c. by rewrite E.
Qed.

Lemma rename_pairs_keys_NoDup : NoDup rename_pairs.*1.
Proof. refine (bool_decide_unpack _ _). by vm_compute. Qed.

Lemma rename_column_preimage c k :
  rename_map !! k = Some k ->
  rename_column c = k <-> (c, k) ∈ rename_pairs.
Proof.
  intros Hk. unfold rename_column.
  destruct (rename_map !! c) as [v|] eqn:E;
    [change (default c (Some v)) with v|change (default c None) with c].
  - split.
    + intros ->. by apply rename_map_inv.
    + intros H. apply (elem_of_list_to_map_1 (M := gmap string)) in H;
        [|apply rename_pairs_keys_NoDup].
      fold rename_map in H. congruence.
  - split.
    + intros ->. congruence.
    + intros H. apply (elem_of_list_to_map_1 (M := gmap string)) in H;
        [|apply rename_pairs_keys_NoDup].
      fold rename_map in H. congruence.
Qed.

(** Which keys of [rename_pairs] have a given value. *)
Ltac alias_cases H :=
  unfold rename_pairs in H; rewrite !elem_of_cons, elem_of_nil in H;
  repeat (destruct H as [H|H]); try done; simplify_eq; tauto.

(** X2: after the renaming the frame has the column 입사일, 퇴사일 or 부서 exactly
    when the sheet has that column under one of its aliases; so the date
    coercion of lines 43 to 46 and the selector of line 64 find the column
    whichever alias the sheet uses. *)
Theorem renamed_columns_present (cols : list string) :
  ("입사일" ∈ rename_columns cols <-> "입사일" ∈ cols \/ "그룹입사일" ∈ cols) /\
  ("퇴사일" ∈ rename_columns cols <-> "퇴사일" ∈ cols \/ "퇴사일자" ∈ cols) /\
  ("부서" ∈ rename_columns cols <-> "부서" ∈ cols \/ "조직" ∈ cols \/ "소속" ∈ cols).
Proof.
  unfold rename_columns. rewrite !list_elem_of_fmap.
  split; [|split]; split.
  - intros (c & Hc & Hin). symmetry in Hc.
    apply rename_column_preimage in Hc; [|by vm_compute].
    alias_cases Hc.
  - intros [H|H]; eexists; (split; [|exact H]); by vm_compute.
  - intros (c & Hc & Hin). symmetry in Hc.
    apply rename_column_preimage in Hc; [|by vm_compute].
    alias_cases Hc.
  - intros [H|H]; eexists; (split; [|exact H]); by vm_compute.
  - intros (c & Hc & Hin). symmetry in Hc.
    apply rename_column_preimage in Hc; [|by vm_compute].
    alias_cases Hc.
  - intros [H|[H|H]]; eexists; (split; [|exact H]); by vm_compute.
Qed.

(** * The department selector *)

(** X3: the selector offers the ALL entry first, then every department of the
    roster once; the whole list is free of duplicates exactly when no row's
    department carries the name of the ALL entry. *)
Theorem dept_list_spec (df : list Row) :
  head (dept_list df) = Some (Some ALL) /\
  NoDup (tail (dept_list df)) /\
  (forall d, d ∈ dept_list df <-> d = Some ALL \/ exists r, r ∈ df /\ dept r = d) /\
  (NoDup (dept_list df) <-> forall r, r ∈ df -> dept r <> Some ALL).
Proof.
  unfold dept_list. cbn [head tail]. split; [done|]. split; [apply NoDup_unique|].
  split.
  - intros d. rewrite elem_of_cons, elem_of_unique, list_elem_of_fmap.
    split; intros [H|(r & H1 & H2)]; eauto.
  - rewrite NoDup_cons, elem_of_unique, list_elem_of_fmap. split.
    + intros [Hn _] r Hr Hd. apply Hn. by exists r.
    + intros H. split; [|apply NoDup_unique].
      intros (r & Hd & Hr). by apply (H r).
Qed.

(** * Relations between the counts *)

Lemma filter_sublist {A} (f : A -> bool) (l : list A) : sublist (List.filter f l) l.
Proof.
  induction l as [|x l IH]; cbn; [constructor|].
  destruct (f x); by constructor.
Qed.

Lemma filter_length_le {A} (f g : A -> bool) (l : list A) :
  (forall x, x ∈ l -> f x = true -> g x = true) ->
  (length (List.filter f l) <= length (List.filter g l))%nat.
Proof.
  induction l as [|x l IH]; intros H; cbn; [lia|].
  assert (length (List.filter f l) <= length (List.filter g l))%nat as IH'
    by (apply IH; intros y Hy; apply H; by right).
  destruct (f x) eqn:Hf.
  - rewrite (H x) by (done || by left). cbn. lia.
  - destruct (g x); cbn; lia.
Qed.

Lemma filter_length_split {A} (f g h : A -> bool) (l : list A) :
  (forall x, Nat.b2n (f x) = (Nat.b2n (g x) + Nat.b2n (h x))%nat) ->
  length (List.filter f l)
  = (length (List.filter g l) + length (List.filter h l))%nat.
Proof.
  intros H. induction l as [|x l IH]; cbn; [done|].
  specialize (H x). destruct (f x), (g x), (h x); cbn in *; lia.
Qed.

(** X4: [df_current] is made of rows of the roster, in the order of the
    roster, and each of them was hired by the reference date and has not
    left before it; so the head count never exceeds the size of the roster. *)
Theorem df_current_sound (df : list Row) (picked : Z) (sel : option string) :
  sublist (df_current df picked sel) df /\
  (total_count df picked sel <= length df)%nat /\
  forall r, r ∈ df_current df picked sel ->
    (exists h, hire_date r = Some h /\ h <= target_date picked) /\
    (forall e, exit_date r = Some e -> target_date picked <= e).
Proof.
  unfold total_count. rewrite df_current_spec.
  split; [apply filter_sublist|]. split; [by apply sublist_length, filter_sublist|].
  intros r Hr. apply list_elem_of_In, List.filter_In in Hr as [_ Hr].
  apply andb_true_iff in Hr as [Hr _]. unfold is_active in Hr.
  destruct (hire_date r) as [h|]; [|done].
  apply andb_true_iff in Hr as [Hh He]. apply Z.leb_le in Hh.
  split; [by exists h|].
  intros e Hx. rewrite Hx in He. by apply Z.geb_le in He.
Qed.

(** X5: selecting a department only narrows: under any filter value the head
    count, the exit count and every count of the trend are at most those
    under ALL. *)
Theorem dept_filter_narrows (df : list Row) (picked : Z) (sel : option string) :
  (total_count df picked sel <= total_count df picked (Some ALL))%nat /\
  (exit_count df picked sel <= exit_count df picked (Some ALL))%nat /\
  Forall2 (fun p q => base_month p = base_month q /\ (headcount p <= headcount q)%nat)
          (trend_data df picked sel) (trend_data df picked (Some ALL)).
Proof.
  split; [|split].
  - unfold total_count. rewrite !df_current_spec. apply filter_length_le.
    intros r _ H. apply andb_true_iff in H as [H _]. by rewrite H.
  - unfold exit_count. rewrite !mask_exit_spec, !bool_index_fmap.
    apply filter_length_le.
    intros r _ H. apply andb_true_iff in H as [H _]. by rewrite H.
  - unfold trend_data. apply Forall2_fmap, Forall_Forall2_diag, Forall_forall.
    intros d _. cbn. split; [done|]. rewrite !temp_df_spec. apply filter_length_le.
    intros r _ H. apply andb_true_iff in H as [H _]. by rewrite H.
Qed.

(** X6: at one and the same date the inclusive head count is the strict count
    of the trend plus the rows that leave exactly at that date. *)
Theorem inclusive_is_strict_plus_leavers (df : list Row) (picked : Z) (sel : option string) :
  total_count df picked sel
  = (length (temp_df df sel (target_date picked))
     + length (List.filter (exits_at (target_date picked) sel) df))%nat.
Proof.
  unfold total_count, target_date. rewrite df_current_spec, temp_df_spec.
  apply filter_length_split. intros r. unfold is_active, exits_at.
  destruct (hire_date r) as [h|]; [|done].
  destruct (h <=? to_datetime picked); [|by destruct (exit_date r)].
  destruct (exit_date r) as [e|]; [|by destruct (passes_dept sel r)].
  unfold Z.geb, Z.gtb. rewrite Z.eqb_compare.
  destruct (e ?= to_datetime picked); by destruct (passes_dept sel r).
Qed.

Lemma Qsum_nonneg (xs : list Q) : Forall (fun x => 0 <= x)%Q xs -> (0 <= Qsum xs)%Q.
Proof.
  induction 1 as [|x xs Hx _ IH]; cbn; [apply Qle_refl|].
  replace 0%Q with (0 + 0)%Q by done. by apply Qplus_le_compat.
Qed.

Lemma rint_nonneg q : (0 <= q)%Q -> 0 <= rint q.
Proof.
  intros H. assert (0 <= Qfloor q) as Hf.
  { change 0 with (Qfloor 0). by apply Qfloor_resp_le. }
  unfold rint. destruct (_ ?= _)%Q; [destruct (Z.even _)| |]; lia.
Qed.

Lemma round1q_nonneg q : (0 <= q)%Q -> (0 <= round1q q)%Q.
Proof.
  intros H. unfold round1q.
  assert (0 <= rint (q * 10)) as Hr.
  { apply rint_nonneg. replace 0%Q with (0 * 10)%Q by done.
    by apply Qmult_le_compat_r. }
  apply Qle_shift_div_l; [done|]. rewrite Qmult_0_l.
  change 0%Q with (inject_Z 0). by rewrite <- Zle_Qle.
Qed.

Lemma tenure_days_nonneg df picked sel r :
  r ∈ active_set df picked sel -> 0 <= tenure_days (to_datetime picked) r.
Proof.
  intros Hr. apply list_elem_of_In, List.filter_In in Hr as [_ Hr].
  apply andb_true_iff in Hr as [Hr _]. unfold is_active in Hr. unfold tenure_days.
  destruct (hire_date r) as [h|]; [|done].
  apply andb_true_iff in Hr as [Hh _]. apply Z.leb_le in Hh.
  apply Z.div_pos; [lia|done].
Qed.

Lemma mean_tenure_years_nonneg df picked sel :
  (0 <= mean_tenure_years (active_set df picked sel) (to_datetime picked))%Q.
Proof.
  unfold mean_tenure_years.
  assert (0 <= Qsum ((fun r => inject_Z (tenure_days (to_datetime picked) r) / inject_Z 365)
                       <$> active_set df picked sel))%Q as Hs.
  { apply Qsum_nonneg, Forall_fmap, Forall_forall. intros r Hr. cbn.
    apply Qle_shift_div_l; [done|]. rewrite Qmult_0_l.
    change 0%Q with (inject_Z 0). rewrite <- Zle_Qle. by eapply tenure_days_nonneg. }
  destruct (active_set df picked sel) as [|r l]; [done|].
  apply Qle_shift_div_l.
  - change 0%Q with (inject_Z 0). rewrite <- Zlt_Qlt. cbn [length]. lia.
  - by rewrite Qmult_0_l.
Qed.

(** * The average tenure is a number *)

(** X7: the average tenure is never NaN and never negative, whatever the
    roster: every row of [df_current] has a hire date that is not after the
    reference date. *)
Theorem avg_tenure_nonneg (df : list Row) (picked : Z) (sel : option string) :
  exists q, avg_tenure df picked sel = Some q /\ (0 <= q)%Q.
Proof.
  destruct (active_set df picked sel) as [|r l] eqn:E.
  - exists 0%Q. split; [by apply avg_tenure_empty|done].
  - eexists. split.
    + apply avg_tenure_nonempty. by rewrite E.
    + apply round1q_nonneg, mean_tenure_years_nonneg.
Qed.

(** * The counts over time *)

(** X8: when no row of the roster leaves before a date, the head count at
    that date is at least the head count at any earlier date. *)
Theorem headcount_grows_without_exits (df : list Row) (p1 p2 : Z) (sel : option string) :
  p1 <= p2 ->
  (forall r e, r ∈ df -> exit_date r = Some e -> target_date p2 <= e) ->
  (total_count df p1 sel <= total_count df p2 sel)%nat.
Proof.
  intros Hp Hex. unfold total_count. rewrite !df_current_spec.
  apply filter_length_le. intros r Hr H.
  apply andb_true_iff in H as [Ha Hd]. rewrite Hd, andb_true_r.
  unfold is_active in *. destruct (hire_date r) as [h|]; [|done].
  apply andb_true_iff in Ha as [Hh _]. apply Z.leb_le in Hh.
  assert (to_datetime p1 <= to_datetime p2) by (unfold to_datetime, ns_per_day; lia).
  apply andb_true_iff. split; [apply Z.leb_le; lia|].
  destruct (exit_date r) as [e|] eqn:He; [|done].
  apply Z.geb_le. by apply (Hex r e).
Qed.

Lemma headcount_grows_without_exits_witness :
  (total_count scenario (ymd2ord 2022 6 1) (Some ALL)
   <= total_count scenario (ymd2ord 2024 6 15) (Some ALL))%nat.
Proof.
  apply headcount_grows_without_exits.
  - vm_compute. discriminate.
  - intros r e Hr He. unfold scenario in Hr.
    rewrite !elem_of_cons, elem_of_nil in Hr.
    destruct Hr as [->|[->|[]]]; [discriminate He|].
    injection He as <-. vm_compute. discriminate.
Defined.

(** X9: within one calendar year the exit count does not decrease as the
    reference date advances. *)
Theorem exit_count_grows_in_year (df : list Row) (p1 p2 : Z) (sel : option string) :
  p1 <= p2 ->
  ts_year (target_date p1) = ts_year (target_date p2) ->
  (exit_count df p1 sel <= exit_count df p2 sel)%nat.
Proof.
  intros Hp Hy. unfold exit_count. rewrite !mask_exit_spec, !bool_index_fmap.
  apply filter_length_le. intros r _ H.
  apply andb_true_iff in H as [Hw Hd]. rewrite Hd, andb_true_r.
  unfold exit_in_ytd, target_date in *. destruct (exit_date r) as [e|]; [|done].
  apply andb_true_iff in Hw as [H1 H2]. apply Z.eqb_eq in H1. apply Z.leb_le in H2.
  assert (to_datetime p1 <= to_datetime p2) by (unfold to_datetime, ns_per_day; lia).
  apply andb_true_iff. split; [apply Z.eqb_eq; congruence|apply Z.leb_le; lia].
Qed.

Lemma exit_count_grows_in_year_witness :
  (exit_count scenario (ymd2ord 2024 3 1) (Some ALL)
   <= exit_count scenario (ymd2ord 2024 9 1) (Some ALL))%nat.
Proof.
  apply exit_count_grows_in_year; [vm_compute; discriminate|vm_compute; reflexivity].
Defined.

(** X10: a row counted among the year-to-date exits is among the current
    rows only when it leaves on the reference date itself. *)
Theorem exited_and_current (df : list Row) (picked : Z) (sel : option string) (r : Row) :
  r ∈ bool_index df (mask_exit df picked sel) ->
  r ∈ df_current df picked sel ->
  exit_date r = Some (target_date picked).
Proof.
  rewrite mask_exit_spec, bool_index_fmap, df_current_spec.
  intros He Hc.
  apply list_elem_of_In, List.filter_In in He as [_ He].
  apply list_elem_of_In, List.filter_In in Hc as [_ Hc].
  apply andb_true_iff in He as [He _]. apply andb_true_iff in Hc as [Hc _].
  unfold exit_in_ytd in He. unfold is_active in Hc. unfold target_date.
  destruct (exit_date r) as [e|]; [|done].
  destruct (hire_date r) as [h|]; [|done].
  apply andb_true_iff in He as [_ He]. apply andb_true_iff in Hc as [_ Hc].
  apply Z.leb_le in He. apply Z.geb_le in Hc. f_equal. lia.
Qed.

Lemma exited_and_current_witness :
  exit_date (row_of (Some "B") (Some (datetime 2023 3 1)) (Some (datetime 2024 6 15)))
  = Some (target_date (ymd2ord 2024 6 15)).
Proof.
  apply (exited_and_current scenario (ymd2ord 2024 6 15) (Some ALL)).
  - vm_compute. apply list_elem_of_here.
  - vm_compute. apply list_elem_of_further, list_elem_of_here.
Defined.

(** * Months and month ends *)

Lemma days_in_month_bounds y m : 1 <= m <= 12 -> 28 <= days_in_month y m <= 31.
Proof.
  intros H. unfold days_in_month.
  assert (m = 1 \/ m = 2 \/ m = 3 \/ m = 4 \/ m = 5 \/ m = 6 \/ m = 7 \/ m = 8 \/
          m = 9 \/ m = 10 \/ m = 11 \/ m = 12) as Hm by lia.
  destruct (is_leap y);
    repeat (destruct Hm as [->|Hm]; [by vm_compute|]); subst; by vm_compute.
Qed.

Lemma days_before_month_mono y a b :
  1 <= a -> a <= b -> b <= 13 ->
  days_before_month (is_leap y) a <= days_before_month (is_leap y) b.
Proof.
  intros Ha Hab Hb. replace b with (a + Z.of_nat (Z.to_nat (b - a))) in * by lia.
  induction (Z.to_nat (b - a)) as [|k IH]; [rewrite Z.add_0_r; lia|].
  rewrite Nat2Z.inj_succ in *.
  replace (a + Z.succ (Z.of_nat k)) with (a + Z.of_nat k + 1) in * by lia.
  rewrite (days_in_month_diff y (a + Z.of_nat k)) by lia.
  pose proof (days_in_month_bounds y (a + Z.of_nat k) ltac:(lia)).
  specialize (IH ltac:(lia) ltac:(lia)). lia.
Qed.

Lemma month_of_yday_unique y yd m :
  1 <= m <= 12 ->
  days_before_month (is_leap y) m <= yd < days_before_month (is_leap y) (m + 1) ->
  month_of_yday (is_leap y) yd = m.
Proof.
  intros Hm [Hlo Hhi].
  assert (0 <= yd < 365 + (if is_leap y then 1 else 0)) as Hyd.
  { pose proof (days_before_month_mono y 1 m ltac:(lia) ltac:(lia) ltac:(lia)) as H1.
    pose proof (days_before_month_mono y (m + 1) 13 ltac:(lia) ltac:(lia) ltac:(lia)) as H2.
    destruct (is_leap y); eval_days_before_month; lia. }
  pose proof (month_of_yday_spec (is_leap y) yd Hyd) as (Hr & Hl & Hh).
  set (m' := month_of_yday (is_leap y) yd) in *.
  destruct (Z.lt_trichotomy m' m) as [L|[E|G]]; [|exact E|].
  - pose proof (days_before_month_mono y (m' + 1) m ltac:(lia) ltac:(lia) ltac:(lia)). lia.
  - pose proof (days_before_month_mono y (m + 1) m' ltac:(lia) ltac:(lia) ltac:(lia)). lia.
Qed.

(** The other round trip: a valid date is recovered from its day number. *)
Lemma ord2ymd_ymd2ord y m d :
  1 <= m <= 12 -> 1 <= d <= days_in_month y m ->
  ord2ymd (ymd2ord y m d) = (y, m, d).
Proof.
  intros Hm Hd.
  pose proof (days_before_month_mono y 1 m ltac:(lia) ltac:(lia) ltac:(lia)) as H1.
  pose proof (days_before_month_mono y (m + 1) 13 ltac:(lia) ltac:(lia) ltac:(lia)) as H2.
  pose proof (days_in_month_diff y m Hm) as Hdiff.
  assert (year_of (ymd2ord y m d) = y) as Hy.
  { apply year_of_unique. rewrite days_before_year_succ. unfold ymd2ord.
    destruct (is_leap y); eval_days_before_month; lia. }
  unfold ord2ymd. rewrite Hy.
  assert (ymd2ord y m d + 719162 - days_before_year y
          = days_before_month (is_leap y) m + d - 1) as -> by (unfold ymd2ord; lia).
  rewrite (month_of_yday_unique y _ m) by lia.
  do 2 f_equal. lia.
Qed.

Lemma ord2ymd_month_end y m :
  1 <= m <= 12 -> ord2ymd (month_end y m) = (y, m, days_in_month y m).
Proof.
  intros Hm. apply ord2ymd_ymd2ord; [done|].
  pose proof (days_in_month_bounds y m Hm). lia.
Qed.

Lemma is_on_offset_month_end y m : 1 <= m <= 12 -> is_on_offset (month_end y m) = true.
Proof.
  intros Hm. unfold is_on_offset. rewrite ord2ymd_month_end by done.
  apply Z.eqb_refl.
Qed.

Lemma month_index_month_end y m : 1 <= m <= 12 -> month_index (month_end y m) = 12 * y + (m - 1).
Proof. intros Hm. unfold month_index. by rewrite ord2ymd_month_end. Qed.

(** A month end is the last day of the month it is in. *)
Lemma is_on_offset_spec n :
  is_on_offset n = true ->
  let '(y, m, _) := ord2ymd n in 1 <= m <= 12 /\ n = month_end y m.
Proof.
  unfold is_on_offset, month_end. pose proof (ord2ymd_spec n) as H.
  destruct (ord2ymd n) as [[y m] d]. destruct H as (Hn & Hm & Hd).
  intros E. apply Z.eqb_eq in E. subst d. done.
Qed.

Lemma le_month_end n :
  let '(y, m, _) := ord2ymd n in n <= month_end y m.
Proof.
  unfold month_end. pose proof (ord2ymd_spec n) as H.
  destruct (ord2ymd n) as [[y m] d]. destruct H as (Hn & Hm & Hd).
  unfold ymd2ord in *. lia.
Qed.

(** Adding the offset lands on a month end: of the same month from inside a
    month, of the next month from a month end. *)
Lemma add_month_end_spec n :
  is_on_offset (add_month_end n) = true /\
  month_index (add_month_end n)
  = month_index n + (if is_on_offset n then 1 else 0).
Proof.
  unfold add_month_end, is_on_offset at 2, month_index at 2.
  pose proof (ord2ymd_spec n) as H.
  destruct (ord2ymd n) as [[y m] d]. destruct H as (Hn & Hm & Hd).
  destruct (d =? days_in_month y m).
  - destruct (Z.eqb_spec m 12) as [->|Hm12].
    + rewrite is_on_offset_month_end, month_index_month_end by lia. split; [done|lia].
    + rewrite is_on_offset_month_end, month_index_month_end by lia. split; [done|lia].
  - rewrite is_on_offset_month_end, month_index_month_end by lia. split; [done|lia].
Qed.

Lemma rollforward_spec n :
  is_on_offset (rollforward n) = true /\ month_index (rollforward n) = month_index n.
Proof.
  unfold rollforward. destruct (is_on_offset n) eqn:E; [done|].
  pose proof (add_month_end_spec n) as [H1 H2]. rewrite E in H2. split; [done|lia].
Qed.

(** Days in a later month are later days. *)
Lemma month_index_lt_day a b : month_index a < month_index b -> a < b.
Proof.
  unfold month_index.
  pose proof (ord2ymd_spec a) as Ha. pose proof (ord2ymd_spec b) as Hb.
  pose proof (year_of_bounds a) as Ya. pose proof (year_of_bounds b) as Yb.
  assert (year_of a = (ord2ymd a).1.1) as Ea by done.
  assert (year_of b = (ord2ymd b).1.1) as Eb by done.
  destruct (ord2ymd a) as [[ya ma] da], (ord2ymd b) as [[yb mb] db].
  cbn in Ea, Eb. subst ya yb.
  destruct Ha as (Hna & Hma & Hda), Hb as (Hnb & Hmb & Hdb). intros Hlt.
  destruct (Z.lt_trichotomy (year_of a) (year_of b)) as [L|[E|G]]; [| |lia].
  - pose proof (days_before_year_mono (year_of a + 1) (year_of b) ltac:(lia)). lia.
  - assert (ma < mb) as Hm by lia.
    pose proof (days_in_month_diff (year_of a) ma Hma) as Hdiff.
    pose proof (days_before_month_mono (year_of a) (ma + 1) mb
                  ltac:(lia) ltac:(lia) ltac:(lia)) as Hmono.
    rewrite <- Hna, <- Hnb. unfold ymd2ord. rewrite <- E. lia.
Qed.

Lemma month_index_mono a b : a <= b -> month_index a <= month_index b.
Proof.
  intros H. destruct (Z_le_gt_dec (month_index a) (month_index b)) as [L|G]; [exact L|].
  pose proof (month_index_lt_day b a ltac:(lia)). lia.
Qed.

Lemma month_index_inj_ym n y m :
  1 <= m <= 12 -> month_index n = 12 * y + (m - 1) ->
  exists d, ord2ymd n = (y, m, d).
Proof.
  unfold month_index. pose proof (ord2ymd_spec n) as H.
  destruct (ord2ymd n) as [[y' m'] d]. destruct H as (_ & Hm' & _).
  intros Hm E. exists d. assert (y' = y) by lia. assert (m' = m) by lia. by subst.
Qed.

(** A month holds one month end, and no later day. *)
Lemma month_end_is_last a b :
  is_on_offset a = true -> month_index a = month_index b -> b <= a.
Proof.
  intros Ha E. apply is_on_offset_spec in Ha. pose proof (le_month_end b) as Hb.
  unfold month_index in E.
  pose proof (ord2ymd_spec a) as Sa. pose proof (ord2ymd_spec b) as Sb.
  destruct (ord2ymd a) as [[ya ma] da], (ord2ymd b) as [[yb mb] db].
  destruct Sa as (_ & Hma & _), Sb as (_ & Hmb & _), Ha as [_ ->].
  assert (ya = yb) by lia. assert (ma = mb) by lia. by subst.
Qed.

Lemma on_offset_same_month a b :
  is_on_offset a = true -> is_on_offset b = true ->
  month_index a = month_index b -> a = b.
Proof.
  intros Ha Hb E.
  pose proof (month_end_is_last a b Ha E).
  pose proof (month_end_is_last b a Hb (eq_sym E)). lia.
Qed.

(** * The points of the generator *)

Lemma generate_range_points fuel cur end_ :
  is_on_offset cur = true ->
  Forall (fun d => is_on_offset d = true /\ cur <= d <= end_)
         (generate_range fuel cur end_).
Proof.
  revert cur. induction fuel as [|fuel IH]; intros cur Hc; cbn [generate_range]; [constructor|].
  destruct (Z.leb_spec cur end_) as [Hle|]; [|constructor].
  constructor; [split; [done|lia]|].
  pose proof (add_month_end_spec cur) as [Hn _]. pose proof (add_month_end_gt cur).
  eapply Forall_impl; [apply IH, Hn|]. cbv beta. intros d (? & ? & ?). split; [done|lia].
Qed.

Lemma generate_range_sorted fuel cur end_ :
  is_on_offset cur = true ->
  StronglySorted Z.lt (generate_range fuel cur end_).
Proof.
  revert cur. induction fuel as [|fuel IH]; intros cur Hc; cbn [generate_range]; [constructor|].
  destruct (Z.leb_spec cur end_) as [Hle|]; [|constructor].
  pose proof (add_month_end_spec cur) as [Hn _]. pose proof (add_month_end_gt cur).
  constructor; [by apply IH|].
  eapply List.Forall_impl; [|apply (generate_range_points _ _ _ Hn)].
  cbv beta. intros d (_ & ? & _). lia.
Qed.

(** The i-th point is the month end i months after the first one. *)
Lemma generate_range_lookup fuel cur end_ i d :
  is_on_offset cur = true ->
  generate_range fuel cur end_ !! i = Some d ->
  month_index d = month_index cur + Z.of_nat i.
Proof.
  revert cur i. induction fuel as [|fuel IH]; intros cur i Hc; cbn [generate_range]; [done|].
  destruct (Z.leb_spec cur end_) as [Hle|]; [|done].
  pose proof (add_month_end_spec cur) as [Hn Hi]. rewrite Hc in Hi.
  destruct i as [|i]; cbn [lookup list_lookup].
  - intros [= ->]. lia.
  - intros H. rewrite (IH _ _ Hn H). lia.
Qed.

(** No month end of the window is skipped. *)
Lemma generate_range_complete fuel cur end_ d :
  (Z.to_nat (end_ - cur + 1) <= fuel)%nat ->
  is_on_offset cur = true -> is_on_offset d = true ->
  cur <= d <= end_ ->
  d ∈ generate_range fuel cur end_.
Proof.
  revert cur. induction fuel as [|fuel IH]; intros cur Hf Hc Hd Hr; [lia|].
  cbn [generate_range]. destruct (Z.leb_spec cur end_) as [Hle|]; [|lia].
  destruct (Z.eq_dec d cur) as [->|Hne]; [by left|]. right.
  pose proof (add_month_end_spec cur) as [Hn Hi]. rewrite Hc in Hi.
  pose proof (add_month_end_gt cur).
  assert (add_month_end cur <= d).
  { pose proof (month_index_mono cur d ltac:(lia)) as Hm.
    destruct (Z.eq_dec (month_index d) (month_index cur)) as [E|E].
    - pose proof (on_offset_same_month _ _ Hd Hc E). lia.
    - destruct (Z.eq_dec (month_index d) (month_index (add_month_end cur))) as [E'|E'].
      + pose proof (on_offset_same_month _ _ Hd Hn E'). lia.
      + pose proof (month_index_lt_day (add_month_end cur) d ltac:(lia)). lia. }
  apply IH; [lia|done|done|lia].
Qed.

(** The number of points, from a month end on. *)
Lemma generate_range_length fuel cur end_ :
  (Z.to_nat (end_ - cur + 1) <= fuel)%nat ->
  is_on_offset cur = true ->
  month_index cur <= month_index end_ + 1 ->
  length (generate_range fuel cur end_)
  = Z.to_nat (month_index end_ - month_index cur
              + (if is_on_offset end_ then 1 else 0)).
Proof.
  revert cur. induction fuel as [|fuel IH]; intros cur Hf Hc Hm.
  - cbn [generate_range length]. assert (end_ < cur) as Hlt by lia.
    pose proof (month_index_mono end_ cur ltac:(lia)).
    destruct (is_on_offset end_) eqn:He; [|lia].
    destruct (Z.eq_dec (month_index cur) (month_index end_)) as [E|E]; [|lia].
    pose proof (on_offset_same_month _ _ Hc He E). lia.
  - cbn [generate_range]. pose proof (add_month_end_spec cur) as [Hn Hi]. rewrite Hc in Hi.
    pose proof (add_month_end_gt cur).
    destruct (Z.leb_spec cur end_) as [Hle|Hgt].
    + pose proof (month_index_mono cur end_ Hle).
      cbn [length]. rewrite IH by (done || lia). rewrite Hi.
      destruct (is_on_offset end_) eqn:He; [lia|].
      destruct (Z.eq_dec (month_index cur) (month_index end_)) as [E|E]; [|lia].
      pose proof (month_end_is_last cur end_ Hc E).
      assert (end_ = cur) as -> by lia. congruence.
    + pose proof (month_index_mono end_ cur ltac:(lia)).
      destruct (is_on_offset end_) eqn:He; [|cbn [length]; lia].
      destruct (Z.eq_dec (month_index cur) (month_index end_)) as [E|E]; [|cbn [length]; lia].
      pose proof (on_offset_same_month _ _ Hc He E). lia.
Qed.

Lemma rollforward_le_month_end start d :
  is_on_offset d = true -> start <= d -> rollforward start <= d.
Proof.
  intros Hd Hs. pose proof (rollforward_spec start) as [Hr Hi].
  pose proof (month_index_mono start d Hs) as Hm. rewrite <- Hi in Hm.
  destruct (Z.eq_dec (month_index (rollforward start)) (month_index d)) as [E|E].
  - pose proof (on_offset_same_month _ _ Hr Hd E). lia.
  - pose proof (month_index_lt_day (rollforward start) d ltac:(lia)). lia.
Qed.

(** [Calendar.date_range] holds the month ends of its window, and only them. *)
Lemma elem_of_date_range start end_ d :
  d ∈ Calendar.date_range start end_ <-> is_on_offset d = true /\ start <= d <= end_.
Proof.
  unfold Calendar.date_range. pose proof (rollforward_spec start) as [Hr _].
  pose proof (rollforward_ge start) as Hge. split.
  - intros H. pose proof (generate_range_points
                 (Z.to_nat (end_ - start + 1)) _ end_ Hr) as Hall.
    rewrite Forall_forall in Hall. destruct (Hall d H) as (? & ? & ?).
    split; [done|lia].
  - intros [Hd [H1 H2]]. apply generate_range_complete; [lia|done|done|].
    split; [by apply rollforward_le_month_end|done].
Qed.

(** * The reference points of the trend *)

Lemma target_before_start picked :
  target_date picked < start_trend_date <-> picked < ymd2ord 2023 1 31.
Proof.
  unfold target_date, start_trend_date, datetime, to_datetime.
  pose proof ns_per_day_pos. nia.
Qed.

Lemma date_range_days picked :
  date_range picked
  = to_datetime <$> Calendar.date_range (Z.min picked (ymd2ord 2023 1 31)) picked.
Proof.
  unfold date_range, pd_date_range.
  destruct (Z.ltb_spec (target_date picked) start_trend_date) as [H|H].
  - apply target_before_start in H. unfold target_date.
    rewrite ts_day_to_datetime. by rewrite Z.min_l by lia.
  - assert (ymd2ord 2023 1 31 <= picked).
    { destruct (Z_le_gt_dec (ymd2ord 2023 1 31) picked) as [L|G]; [done|].
      apply Z.gt_lt, target_before_start in G. lia. }
    unfold start_trend_date, datetime, target_date.
    rewrite !ts_day_to_datetime. by rewrite Z.min_r by lia.
Qed.

Lemma StronglySorted_to_datetime (l : list Z) :
  StronglySorted Z.lt l -> StronglySorted Z.lt (to_datetime <$> l).
Proof.
  induction 1 as [|x l Hs IH Hx]; cbn [fmap list_fmap]; constructor; [done|].
  apply Forall_fmap.
  eapply Forall_impl; [exact Hx|]. intros y Hy. by apply to_datetime_lt.
Qed.

(** X11: the reference points of the trend are exactly the midnights of the
    month ends between the configured start (or the reference date, when it
    is earlier) and the reference date: no point lies outside the window or
    inside a month, and no month end of the window is missing. *)
Theorem trend_points_spec (picked : Z) (d : Z) :
  d ∈ date_range picked <->
  exists n, d = to_datetime n /\ is_on_offset n = true /\
            Z.min picked (ymd2ord 2023 1 31) <= n <= picked.
Proof.
  rewrite date_range_days, list_elem_of_fmap.
  split; intros (n & Hd & Hn); exists n; (split; [done|]);
    by apply elem_of_date_range.
Qed.

(** X12: the reference points of the trend are in strictly increasing order:
    the series is chronological and no point occurs twice. *)
Theorem trend_points_sorted (picked : Z) :
  StronglySorted Z.lt (date_range picked).
Proof.
  rewrite date_range_days. apply StronglySorted_to_datetime.
  apply generate_range_sorted, rollforward_spec.
Qed.

Lemma month_index_start : month_index (ymd2ord 2023 1 31) = 12 * 2023.
Proof. by vm_compute. Qed.

Lemma date_range_from_start_days picked :
  start_trend_date <= target_date picked ->
  date_range picked = to_datetime <$> Calendar.date_range (ymd2ord 2023 1 31) picked
  /\ ymd2ord 2023 1 31 <= picked.
Proof.
  intros H. assert (ymd2ord 2023 1 31 <= picked).
  { destruct (Z_le_gt_dec (ymd2ord 2023 1 31) picked) as [L|G]; [done|].
    apply Z.gt_lt, target_before_start in G. lia. }
  split; [|done]. rewrite date_range_days. by rewrite Z.min_r by lia.
Qed.

(** X13: from the configured start on, the trend has one point for each month
    from January 2023 to the month before that of the reference date, and one
    more when the reference date is the last day of its month. *)
Theorem trend_length (df : list Row) (picked : Z) (sel : option string) :
  start_trend_date <= target_date picked ->
  let '(y, m, _) := ord2ymd picked in
  Z.of_nat (length (trend_data df picked sel))
  = 12 * (y - 2023) + (m - 1) + (if is_on_offset picked then 1 else 0).
Proof.
  intros H. apply date_range_from_start_days in H as [Hr Hle].
  unfold trend_data. rewrite length_fmap, Hr, length_fmap.
  unfold Calendar.date_range.
  change (rollforward (ymd2ord 2023 1 31)) with (ymd2ord 2023 1 31).
  pose proof (month_index_mono _ _ Hle) as Hm. rewrite month_index_start in Hm.
  rewrite generate_range_length; [|lia|by vm_compute|rewrite month_index_start; lia].
  rewrite month_index_start. unfold month_index in *.
  destruct (ord2ymd picked) as [[y m] d0].
  destruct (is_on_offset picked); lia.
Qed.

Lemma trend_length_witness :
  Z.of_nat (length (trend_data scenario (ymd2ord 2024 6 15) (Some ALL))) = 17.
Proof.
  pose proof (trend_length scenario (ymd2ord 2024 6 15) (Some ALL)) as H.
  change (ord2ymd (ymd2ord 2024 6 15)) with (2024, 6, 15) in H.
  rewrite H; [reflexivity|]. vm_compute. discriminate.
Defined.

(** X14: from the configured start on, the i-th point of the trend (counting
    from 0) is the strict count at the end of the i-th month after January
    2023, labelled with that month. *)
Theorem trend_lookup (df : list Row) (picked : Z) (sel : option string)
    (i : nat) (p : TrendPoint) :
  start_trend_date <= target_date picked ->
  trend_data df picked sel !! i = Some p ->
  let d := to_datetime (month_end (2023 + Z.of_nat i / 12) (Z.of_nat i mod 12 + 1)) in
  p = {| base_month := strftime_Ym d; headcount := length (temp_df df sel d) |}.
Proof.
  intros H Hp. apply date_range_from_start_days in H as [Hr Hle].
  unfold trend_data in Hp. rewrite Hr, !list_lookup_fmap in Hp.
  unfold Calendar.date_range in Hp.
  change (rollforward (ymd2ord 2023 1 31)) with (ymd2ord 2023 1 31) in Hp.
  destruct (generate_range _ _ _ !! i) as [n|] eqn:Hn; [|discriminate Hp].
  cbn [fmap option_fmap option_map] in Hp. injection Hp as <-. cbv zeta.
  assert (is_on_offset (ymd2ord 2023 1 31) = true) as Hs by (by vm_compute).
  pose proof (generate_range_lookup _ _ _ _ _ Hs Hn) as Hi.
  rewrite month_index_start in Hi.
  pose proof (generate_range_points (Z.to_nat (picked - ymd2ord 2023 1 31 + 1)) _ picked Hs)
    as Hall.
  rewrite Forall_lookup in Hall. destruct (Hall i n Hn) as [Hon _].
  assert (n = month_end (2023 + Z.of_nat i / 12) (Z.of_nat i mod 12 + 1)) as ->; [|done].
  pose proof (Z.mod_pos_bound (Z.of_nat i) 12 ltac:(lia)) as Hmod.
  pose proof (Z.div_mod (Z.of_nat i) 12 ltac:(lia)) as Hdm.
  apply on_offset_same_month; [done|apply is_on_offset_month_end; lia|].
  rewrite month_index_month_end by lia. lia.
Qed.

Lemma trend_lookup_witness :
  trend_data scenario (ymd2ord 2024 6 15) (Some ALL) !! 13%nat
  = Some {| base_month := "2024-02"; headcount := 2 |}.
Proof.
  destruct (trend_data scenario (ymd2ord 2024 6 15) (Some ALL) !! 13%nat) as [p|] eqn:E;
    [|vm_compute in E; discriminate E].
  rewrite (trend_lookup scenario (ymd2ord 2024 6 15) (Some ALL) 13%nat p);
    [vm_compute; reflexivity|vm_compute; discriminate|exact E].
Defined.

(** X15: the trend chart is drawn, the series being non-empty, exactly when
    the reference date is not before the configured start or is the last day
    of its month; on any other date the page shows its notice instead. *)
Theorem trend_chart_shown_iff (df : list Row) (picked : Z) (sel : option string) :
  trend_chart_shown df picked sel = true <->
  start_trend_date <= target_date picked \/ is_on_offset picked = true.
Proof.
  unfold trend_chart_shown, trend_data.
  rewrite negb_true_iff, bool_decide_eq_false.
  destruct (Z_le_gt_dec start_trend_date (target_date picked)) as [L|G].
  - destruct (date_range_from_start picked L) as [rest ->]. cbn. split; [tauto|done].
  - rewrite (date_range_before_start picked) by lia.
    destruct (is_on_offset picked); cbn; split; try done; try tauto.
    intros [?|?]; [lia|done].
Qed.

Lemma last_sorted_max (l : list Z) (x : Z) :
  StronglySorted Z.lt l -> x ∈ l -> Forall (fun y => y <= x) l -> last l = Some x.
Proof.
  induction 1 as [|y l Hs IH Hy]; intros Hx Hmax; [by apply elem_of_nil in Hx|].
  apply Forall_cons in Hmax as [Hyx Hmax].
  destruct l as [|z l].
  - apply list_elem_of_singleton in Hx. by subst.
  - change (last (y :: z :: l)) with (last (z :: l)). apply IH; [|done].
    apply elem_of_cons in Hx as [->|Hx]; [|done].
    apply Forall_cons in Hy as [Hyz _]. apply Forall_cons in Hmax as [Hzx _]. lia.
Qed.

Lemma date_range_last picked :
  is_on_offset picked = true -> last (date_range picked) = Some (target_date picked).
Proof.
  intros Hon. apply last_sorted_max.
  - rewrite date_range_days. apply StronglySorted_to_datetime.
    apply generate_range_sorted, rollforward_spec.
  - rewrite date_range_days. apply list_elem_of_fmap. exists picked. split; [done|].
    apply elem_of_date_range. split; [done|lia].
  - rewrite date_range_days. apply Forall_fmap, Forall_forall. intros n Hn.
    apply elem_of_date_range in Hn as (_ & _ & Hn). cbv beta. unfold compose, target_date.
    unfold to_datetime, ns_per_day. lia.
Qed.

(** X16: when the reference date is the last day of its month, the last point
    of the trend is the point at the reference date itself: its count is the
    strict count at that date. *)
Theorem trend_last_point (df : list Row) (picked : Z) (sel : option string) :
  is_on_offset picked = true ->
  last (trend_data df picked sel)
  = Some {| base_month := strftime_Ym (target_date picked);
            headcount := length (temp_df df sel (target_date picked)) |}.
Proof.
  intros Hon. unfold trend_data. by rewrite fmap_last, date_range_last.
Qed.

Lemma trend_last_point_witness :
  last (trend_data scenario (ymd2ord 2024 6 30) (Some ALL))
  = Some {| base_month := "2024-06"; headcount := 1 |}.
Proof.
  rewrite (trend_last_point scenario (ymd2ord 2024 6 30) (Some ALL));
    [vm_compute; reflexivity|vm_compute; reflexivity].
Defined.

(** * Filter values that match no row *)

Lemma passes_dept_no_match sel r :
  sel <> Some ALL -> (sel = None \/ dept r <> sel) -> passes_dept sel r = false.
Proof.
  intros Hall H. unfold passes_dept, dept_filtered.
  rewrite bool_decide_eq_false_2 by done. cbn [negb].
  destruct (dept r) as [a|], sel as [b|]; try done.
  apply bool_decide_eq_false_2. destruct H as [?|H]; congruence.
Qed.

Lemma filter_none {A} (f : A -> bool) (l : list A) :
  (forall x, x ∈ l -> f x = false) -> List.filter f l = [].
Proof.
  induction l as [|x l IH]; intros H; cbn; [done|].
  rewrite (H x) by left. apply IH. intros y Hy. apply H. by right.
Qed.

(** X17: a filter value other than ALL that is the missing-department entry
    of the selector, or that names no department of the roster, selects
    nothing: head count 0, average tenure 0, exit count 0 and a trend of
    zeros.  In particular the rows without a department are reachable under
    ALL only. *)
Theorem unmatched_filter_selects_nothing (df : list Row) (picked : Z) (sel : option string) :
  sel <> Some ALL ->
  (sel = None \/ forall r, r ∈ df -> dept r <> sel) ->
  total_count df picked sel = 0%nat /\
  avg_tenure df picked sel = Some 0%Q /\
  exit_count df picked sel = 0%nat /\
  Forall (fun p => headcount p = 0%nat) (trend_data df picked sel).
Proof.
  intros Hall H.
  assert (forall r, r ∈ df -> passes_dept sel r = false) as Hp.
  { intros r Hr. apply passes_dept_no_match; [done|].
    destruct H as [?|H]; [by left|right; by apply H]. }
  assert (active_set df picked sel = []) as Ha.
  { apply filter_none. intros r Hr. by rewrite (Hp r Hr), andb_false_r. }
  split; [|split; [|split]].
  - unfold total_count. rewrite df_current_spec. fold (active_set df picked sel).
    by rewrite Ha.
  - by apply avg_tenure_empty.
  - unfold exit_count. rewrite mask_exit_spec, bool_index_fmap.
    rewrite filter_none; [done|]. intros r Hr. by rewrite (Hp r Hr), andb_false_r.
  - unfold trend_data. apply Forall_fmap, Forall_forall. intros d _.
    cbn [headcount compose]. rewrite temp_df_spec.
    rewrite filter_none; [done|]. intros r Hr. by rewrite (Hp r Hr), andb_false_r.
Qed.

Lemma unmatched_filter_selects_nothing_witness :
  total_count [row_of None (Some (datetime 2022 1 10)) None] (ymd2ord 2024 6 15) None = 0%nat
  /\ total_count [row_of None (Some (datetime 2022 1 10)) None]
                 (ymd2ord 2024 6 15) (Some ALL) = 1%nat.
Proof.
  split; [|vm_compute; reflexivity].
  apply (unmatched_filter_selects_nothing
           [row_of None (Some (datetime 2022 1 10)) None] (ymd2ord 2024 6 15) None);
    [discriminate|by left].
Defined.

(** * Float arithmetic: closeness *)

Lemma avg_tenure_fl_exact df picked sel :
  avg_tenure_fl exact_ops df picked sel = avg_tenure df picked sel.
Proof. reflexivity. Qed.

Lemma within_refl x e : (0 <= e)%Q -> within x x e.
Proof. unfold within. intros. split; lra. Qed.

Lemma within_weaken x y e e' : (e <= e')%Q -> within x y e -> within x y e'.
Proof. unfold within. intros He [H1 H2]. split; lra. Qed.

Lemma Qsum_within eps (cs ts : list Q) :
  Forall2 (fun c t => within c t (eps * t)) cs ts ->
  within (Qsum cs) (Qsum ts) (eps * Qsum ts).
Proof.
  unfold within. induction 1 as [|c t cs ts [H1 H2] _ [IH1 IH2]]; cbn [Qsum foldr].
  - split; lra.
  - fold (Qsum cs) (Qsum ts). split; lra.
Qed.

Lemma within_scale x y e w :
  (0 <= w)%Q -> within x y e -> within (x * w) (y * w) (e * w).
Proof. unfold within. intros Hw [H1 H2]. split; nra. Qed.

Lemma Qmean_within eps (cs ts : list Q) :
  Forall2 (fun c t => within c t (eps * t)) cs ts ->
  within (Qmean cs) (Qmean ts) (eps * Qmean ts).
Proof.
  intros H. pose proof (Forall2_length _ _ _ H) as Hl.
  unfold Qmean. rewrite Hl. unfold Qdiv.
  set (w := (/ inject_Z (Z.of_nat (length ts)))%Q).
  assert (0 <= w)%Q as Hw.
  { unfold w. apply Qinv_le_0_compat. change 0%Q with (inject_Z 0).
    rewrite <- Zle_Qle. lia. }
  pose proof (within_scale _ _ _ w Hw (Qsum_within eps cs ts H)) as [H1 H2].
  unfold within. split; lra.
Qed.

(** * The average tenure in float64 *)

Lemma tenure_years_fl_values ops df picked sel :
  tenure_years_fl ops df picked sel
  = Some <$> ((fun r => fl_div ops (tenure_days (to_datetime picked) r) 365)
                <$> active_set df picked sel).
Proof.
  unfold tenure_years_fl, div_scalar_fl, dt_days, ts_rsub, target_date.
  rewrite df_current_spec. fold (active_set df picked sel).
  rewrite <- !list_fmap_compose. apply fmap_ext_in. intros r Hr.
  apply active_set_hired in Hr as [h Hh]. cbn. unfold tenure_days. by rewrite Hh.
Qed.

Lemma avg_tenure_fl_nonempty ops df picked sel :
  active_set df picked sel <> [] ->
  avg_tenure_fl ops df picked sel
  = Some (fl_round1 ops
            (fl_mean ops ((fun r => fl_div ops (tenure_days (to_datetime picked) r) 365)
                            <$> active_set df picked sel))).
Proof.
  intros Hne. unfold avg_tenure_fl. rewrite tenure_years_fl_values, df_current_spec.
  fold (active_set df picked sel).
  rewrite bool_decide_eq_false_2 by done. cbn [negb].
  unfold series_mean_fl. rewrite omap_id_Some.
  destruct (active_set df picked sel) as [|r l] eqn:E; [done|]. done.
Qed.

Lemma avg_tenure_fl_empty ops df picked sel :
  active_set df picked sel = [] -> avg_tenure_fl ops df picked sel = Some 0%Q.
Proof.
  intros He. unfold avg_tenure_fl. rewrite df_current_spec.
  fold (active_set df picked sel). by rewrite He.
Qed.

Lemma mean_tenure_years_Qmean active t :
  mean_tenure_years active t
  = Qmean ((fun r => inject_Z (tenure_days t r) / inject_Z 365)%Q <$> active).
Proof. unfold mean_tenure_years, Qmean. by rewrite length_fmap. Qed.

Lemma Qdiv_nonneg a b : 0 <= a -> 0 < b -> (0 <= inject_Z a / inject_Z b)%Q.
Proof.
  intros Ha Hb. apply Qle_shift_div_l.
  - change 0%Q with (inject_Z 0). by rewrite <- Zlt_Qlt.
  - rewrite Qmult_0_l. change 0%Q with (inject_Z 0). by rewrite <- Zle_Qle.
Qed.

Lemma Qmean_nonneg xs : Forall (fun x => 0 <= x)%Q xs -> (0 <= Qmean xs)%Q.
Proof.
  intros H. pose proof (Qsum_nonneg xs H) as Hs. unfold Qmean.
  destruct xs as [|x xs]; [done|].
  apply Qle_shift_div_l.
  - change 0%Q with (inject_Z 0). rewrite <- Zlt_Qlt. cbn [length]. lia.
  - by rewrite Qmult_0_l.
Qed.

Section Accurate.
Context {ops : FloatOps} {eps : Q} {N : Z} (Hacc : float_accurate ops eps N).

(** The column of tenures is close to the exact quotients, cell by cell. *)
Lemma tenure_cells_close df picked sel :
  Forall2 (fun c t => within c t (eps * t))
    ((fun r => fl_div ops (tenure_days (to_datetime picked) r) 365)
       <$> active_set df picked sel)
    ((fun r => inject_Z (tenure_days (to_datetime picked) r) / inject_Z 365)%Q
       <$> active_set df picked sel).
Proof.
  apply Forall2_fmap, Forall_Forall2_diag, Forall_forall. intros r Hr.
  apply (div_close _ _ _ Hacc); [by eapply tenure_days_nonneg|done].
Qed.

Lemma tenure_exact_nonneg df picked sel :
  Forall (fun x => 0 <= x)%Q
    ((fun r => inject_Z (tenure_days (to_datetime picked) r) / inject_Z 365)%Q
       <$> active_set df picked sel).
Proof.
  apply Forall_fmap, Forall_forall. intros r Hr. cbn.
  apply Qdiv_nonneg; [by eapply tenure_days_nonneg|done].
Qed.

Lemma tenure_cells_nonneg df picked sel :
  Forall (fun x => 0 <= x)%Q
    ((fun r => fl_div ops (tenure_days (to_datetime picked) r) 365)
       <$> active_set df picked sel).
Proof.
  apply Forall_fmap, Forall_forall. intros r Hr. cbn.
  pose proof (eps_range _ _ _ Hacc) as [He1 He2].
  pose proof (tenure_days_nonneg _ _ _ _ Hr) as Hd.
  pose proof (div_close _ _ _ Hacc _ 365 Hd ltac:(done)) as [H1 _].
  pose proof (Qdiv_nonneg _ 365 Hd ltac:(done)) as Hq.
  set (q := (inject_Z (tenure_days (to_datetime picked) r) / inject_Z 365)%Q) in *.
  nra.
Qed.

(** The float mean of the column against the exact mean of the tenures. *)
Lemma float_mean_close df picked sel :
  active_set df picked sel <> [] ->
  Z.of_nat (length (active_set df picked sel)) <= N ->
  let M := mean_tenure_years (active_set df picked sel) (to_datetime picked) in
  let mf := fl_mean ops ((fun r => fl_div ops (tenure_days (to_datetime picked) r) 365)
                           <$> active_set df picked sel) in
  (0 <= M)%Q /\ (0 <= mf)%Q /\ within mf M (3 * eps * M).
Proof.
  intros Hne Hlen. cbv zeta. rewrite mean_tenure_years_Qmean.
  pose proof (eps_range _ _ _ Hacc) as [He1 He2].
  pose proof (Qmean_within eps _ _ (tenure_cells_close df picked sel)) as [C1 C2].
  pose proof (Qmean_nonneg _ (tenure_exact_nonneg df picked sel)) as HM.
  pose proof (Qmean_nonneg _ (tenure_cells_nonneg df picked sel)) as HMc.
  pose proof (mean_close _ _ _ Hacc
                ((fun r => fl_div ops (tenure_days (to_datetime picked) r) 365)
                   <$> active_set df picked sel)) as [F1 F2].
  { by destruct (active_set df picked sel). }
  { by rewrite length_fmap. }
  { apply tenure_cells_nonneg. }
  set (M := Qmean (_ <$> _)) in *. set (Mc := Qmean (_ <$> _)) in *.
  set (mf := fl_mean ops _) in *.
  unfold within. split; [done|]. split; [nra|]. split; nra.
Qed.

End Accurate.

Lemma within_Qabs x y e : (Qabs (x - y) <= e)%Q -> within x y e.
Proof. intros H. apply Qabs_Qle_condition in H as [H1 H2]. unfold within. split; lra. Qed.

(** The operations that do not round are accurate, with no error at all. *)
Lemma exact_ops_accurate N : float_accurate exact_ops 0 N.
Proof.
  split.
  - split; [apply Qle_refl|done].
  - intros a b _ _. apply within_refl. lra.
  - intros xs _ _ _. apply within_refl. lra.
  - intros x Hx. exists (rint (x * 10)). split; [|split].
    + apply rint_nonneg. lra.
    + apply within_Qabs. pose proof (rint_close (x * 10)) as H.
      assert (10 * x == x * 10)%Q as -> by ring. lra.
    + apply within_refl. lra.
Qed.

Section AccurateTenure.
Context {ops : FloatOps} {eps : Q} {N : Z} (Hacc : float_accurate ops eps N).

(** The reported value is, up to the float error, a whole number of tenths
    next to ten times the exact mean. *)
Lemma avg_tenure_fl_tenths df picked sel :
  active_set df picked sel <> [] ->
  Z.of_nat (length (active_set df picked sel)) <= N ->
  let M := mean_tenure_years (active_set df picked sel) (to_datetime picked) in
  exists (a : Q) (k : Z),
    avg_tenure_fl ops df picked sel = Some a /\
    0 <= k /\
    within (inject_Z k) (10 * M) ((1 # 2) + 41 * eps * M) /\
    within a (inject_Z k / 10) (eps * (inject_Z k / 10)).
Proof.
  intros Hne Hlen. cbv zeta.
  pose proof (eps_range _ _ _ Hacc) as [He1 He2].
  pose proof (float_mean_close Hacc df picked sel Hne Hlen) as (HM & Hmf & [M1 M2]).
  cbv zeta in HM, Hmf, M1, M2.
  destruct (round_close _ _ _ Hacc _ Hmf) as (k & Hk & [K1 K2] & Ha).
  eexists _, k. split; [by apply avg_tenure_fl_nonempty|]. split; [done|].
  split; [|exact Ha].
  set (M := mean_tenure_years _ _) in *. set (mf := fl_mean ops _) in *.
  unfold within. split; nra.
Qed.

End AccurateTenure.

(** * The computed float64 arithmetic is accurate *)

Lemma pow2_pos e : (0 < pow2 e)%Q.
Proof. apply Qpower_0_lt. done. Qed.

Lemma pow2_plus a b : (pow2 (a + b) == pow2 a * pow2 b)%Q.
Proof. apply Qpower_plus. done. Qed.

Lemma pow2_inject e : 0 <= e -> (pow2 e == inject_Z (2 ^ e))%Q.
Proof. intros H. unfold pow2. by rewrite Zpower_Qpower. Qed.

(** The exponent found is not too large. *)
Lemma ilog2_le x : (0 < x)%Q -> (pow2 (ilog2 x) <= x)%Q.
Proof.
  intros Hx. unfold ilog2. cbv zeta.
  destruct (Qle_bool _ x) eqn:E; [by apply Qle_bool_iff in E|]. clear E.
  destruct x as [n d]. cbn [Qnum Qden].
  assert (0 < n) as Hn by (unfold Qlt in Hx; cbn in Hx; lia).
  pose proof (Z.log2_spec n Hn) as [Ln _].
  pose proof (Z.log2_spec (Z.pos d) ltac:(lia)) as [_ Ld].
  pose proof (Z.log2_nonneg n) as Hln. pose proof (Z.log2_nonneg (Z.pos d)) as Hld.
  set (ln := Z.log2 n) in *. set (ld := Z.log2 (Z.pos d)) in *.
  rewrite (Qmake_Qdiv n d). apply Qle_shift_div_l.
  { change 0%Q with (inject_Z 0). rewrite <- Zlt_Qlt. lia. }
  assert (pow2 (ln - ld - 1) * pow2 (Z.succ ld) == pow2 ln)%Q as Hp.
  { rewrite <- pow2_plus. by replace (ln - ld - 1 + Z.succ ld) with ln by lia. }
  rewrite (pow2_inject (Z.succ ld)) in Hp by lia. rewrite (pow2_inject ln) in Hp by lia.
  pose proof (pow2_pos (ln - ld - 1)) as Hq.
  assert (inject_Z (Z.pos d) <= inject_Z (2 ^ Z.succ ld))%Q as Hd by (rewrite <- Zle_Qle; lia).
  assert (inject_Z (2 ^ ln) <= inject_Z n)%Q as Hn' by (by rewrite <- Zle_Qle).
  set (p := pow2 (ln - ld - 1)) in *. nra.
Qed.

Lemma rnd64_pos_close x : (0 < x)%Q -> within (rnd64_pos x) x (u64 * x).
Proof.
  intros Hx. unfold rnd64_pos. cbv zeta.
  pose proof (Qred_correct (inject_Z (rint (x / pow2 (ilog2 x - 52)))
                            * pow2 (ilog2 x - 52))) as Hred.
  set (r := Qred _) in *.
  pose proof (ilog2_le x Hx) as He.
  assert (pow2 (ilog2 x) == pow2 (ilog2 x - 52) * inject_Z (2 ^ 52))%Q as Hs.
  { rewrite <- (pow2_inject 52) by lia. rewrite <- pow2_plus.
    by replace (ilog2 x - 52 + 52) with (ilog2 x) by lia. }
  pose proof (pow2_pos (ilog2 x - 52)) as Hs0.
  set (s := pow2 (ilog2 x - 52)) in *.
  pose proof (rint_close (x / s)) as Hr. apply Qabs_Qle_condition in Hr as [R1 R2].
  assert (x / s * s == x)%Q as Hxs by (field; lra).
  set (k := inject_Z (rint (x / s))) in *. set (q := (x / s)%Q) in *.
  change (inject_Z (2 ^ 52)) with (4503599627370496 # 1)%Q in Hs.
  unfold within, u64. split; nra.
Qed.

Lemma rnd64_close x : (0 <= x)%Q -> within (rnd64 x) x (u64 * x).
Proof.
  intros Hx. unfold rnd64. destruct (x ?= 0)%Q eqn:E.
  - apply Qeq_alt in E. unfold within, u64. split; lra.
  - apply Qlt_alt in E. lra.
  - apply Qgt_alt in E. by apply rnd64_pos_close.
Qed.

Lemma rnd64_nonneg x : (0 <= x)%Q -> (0 <= rnd64 x)%Q.
Proof. intros Hx. pose proof (rnd64_close x Hx) as [H _]. unfold u64 in H. lra. Qed.

Lemma inject_nat_S n :
  (inject_Z (Z.of_nat (S n)) == 1 + inject_Z (Z.of_nat n))%Q.
Proof. rewrite Nat2Z.inj_succ, <- Z.add_1_l, inject_Z_plus. reflexivity. Qed.

Lemma inject_nat_nonneg n : (0 <= inject_Z (Z.of_nat n))%Q.
Proof. change 0%Q with (inject_Z 0). rewrite <- Zle_Qle. lia. Qed.

(** Rounding a number that is itself close to [t]. *)
Lemma within_round (r v t e u : Q) :
  (0 <= t)%Q -> (0 <= e)%Q -> (0 <= u)%Q ->
  within v t (e * t) -> within r v (u * v) ->
  within r t ((e + u + e * u) * t).
Proof.
  unfold within. intros Ht He Hu [V1 V2] [R1 R2].
  assert (u * v <= u * (t + e * t))%Q by nra.
  split; lra.
Qed.

Lemma within_nonneg v t e : (0 <= t)%Q -> (e <= 1)%Q -> within v t (e * t) -> (0 <= v)%Q.
Proof. unfold within. intros Ht He [V1 _]. nra. Qed.

Lemma u64_pos : (0 <= u64)%Q.
Proof. done. Qed.

(** Adding [xs] from left to right to an accumulator that carries the error
    of [c] roundings. *)
Lemma f64_sum_close_from (xs : list Q) (acc T c : Q) :
  Forall (fun x => 0 <= x)%Q xs ->
  (0 <= c)%Q -> (2 * (c + inject_Z (Z.of_nat (length xs))) * u64 <= 1)%Q ->
  (0 <= T)%Q -> within acc T (2 * c * u64 * T) ->
  within (foldl (fun a x => rnd64 (a + x)) acc xs) (T + Qsum xs)
         (2 * (c + inject_Z (Z.of_nat (length xs))) * u64 * (T + Qsum xs)).
Proof.
  intros Hxs. revert acc T c.
  induction Hxs as [|x xs Hx Hxs IH]; intros acc T c Hc Hn HT Hacc.
  - cbn [foldl length Qsum foldr]. change (inject_Z (Z.of_nat 0)) with 0%Q.
    destruct Hacc. unfold within. split; lra.
  - cbn [foldl Qsum foldr]. fold (Qsum xs).
    pose proof (inject_nat_S (length xs)) as Hi.
    pose proof (inject_nat_nonneg (length xs)) as Hl.
    pose proof u64_pos as Hu.
    cbn [length] in *. set (n := inject_Z (Z.of_nat (length xs))) in *.
    set (n1 := inject_Z (Z.of_nat (S (length xs)))) in *.
    set (u := u64) in *.
    assert (0 <= n1)%Q as Hn1 by lra.
    assert (0 <= n1 * u)%Q as Hnu by (by apply Qmult_le_0_compat).
    assert (0 <= c * u)%Q as Hcu by (by apply Qmult_le_0_compat).
    assert (2 * c * u <= 1)%Q as Hcu1 by lra.
    assert (within (acc + x) (T + x) (2 * c * u * (T + x))) as Hax.
    { destruct Hacc as [A1 A2].
      assert (0 <= c * u * x)%Q by (by apply Qmult_le_0_compat).
      unfold within. split; lra. }
    assert (0 <= T + x)%Q as Htx by lra.
    assert (0 <= 2 * c * u)%Q as Hcu2 by lra.
    pose proof (within_nonneg _ _ _ Htx Hcu1 Hax) as Hax0.
    pose proof (within_round _ _ _ _ u Htx Hcu2 Hu Hax
                  (rnd64_close (acc + x) Hax0)) as Hr.
    destruct (IH (rnd64 (acc + x)) (T + x)%Q (c + 1)%Q) as [I1 I2].
    + lra.
    + fold n. assert (n1 * u == u + n * u)%Q by (rewrite Hi; ring). lra.
    + lra.
    + eapply within_weaken; [|exact Hr].
      assert (0 <= (1 - 2 * c * u) * u * (T + x))%Q by
        (apply Qmult_le_0_compat; [apply Qmult_le_0_compat|]; lra).
      lra.
    + fold n in I1, I2.
      assert ((c + n1) == (c + 1 + n))%Q as Heq by (rewrite Hi; ring).
      unfold within. rewrite Heq. split; lra.
Qed.

Lemma f64_sum_close (xs : list Q) :
  Forall (fun x => 0 <= x)%Q xs ->
  (2 * inject_Z (Z.of_nat (length xs)) * u64 <= 1)%Q ->
  within (f64_sum xs) (Qsum xs) (2 * inject_Z (Z.of_nat (length xs)) * u64 * Qsum xs).
Proof.
  intros Hxs Hn. unfold f64_sum.
  destruct (f64_sum_close_from xs 0 0 0 Hxs) as [H1 H2]; try lra.
  - unfold within. split; lra.
  - unfold within. split; lra.
Qed.

(** The computed float64 operations meet the accuracy taken for granted of
    the library's, for columns of up to 2^20 cells. *)
Lemma binary64_ops_accurate : float_accurate binary64_ops eps64 rows64.
Proof.
  assert (u64 <= eps64)%Q as Hue by done.
  pose proof u64_pos as Hu.
  split.
  - split; done.
  - intros a b Ha Hb. cbn [fl_div binary64_ops].
    pose proof (Qdiv_nonneg a b Ha Hb) as Hq.
    eapply within_weaken; [|apply rnd64_close, Hq].
    set (q := (inject_Z a / inject_Z b)%Q) in *. nra.
  - intros xs Hne Hlen Hxs. cbn [fl_mean binary64_ops]. unfold rows64 in Hlen.
    pose proof (Qsum_nonneg xs Hxs) as HS.
    pose proof (inject_nat_nonneg (length xs)) as Hn0.
    assert (inject_Z (Z.of_nat (length xs)) <= 1048576)%Q as Hn1.
    { change (1048576%Q) with (inject_Z 1048576). by rewrite <- Zle_Qle. }
    assert (1 <= inject_Z (Z.of_nat (length xs)))%Q as Hn2.
    { change 1%Q with (inject_Z 1). rewrite <- Zle_Qle. destruct xs; [done|cbn [length]; lia]. }
    assert (2 * inject_Z (Z.of_nat (length xs)) * u64 <= 1 # 1000)%Q as Hnu.
    { unfold u64. lra. }
    pose proof (f64_sum_close xs Hxs ltac:(lra)) as Hsum.
    pose proof (Qmean_nonneg xs Hxs) as HM.
    unfold Qmean, Qdiv in *.
    set (n := inject_Z (Z.of_nat (length xs))) in *.
    assert (0 <= / n)%Q as Hw by (apply Qinv_le_0_compat; lra).
    apply (within_scale _ _ _ _ Hw) in Hsum.
    assert (within (f64_sum xs * / n) (Qsum xs * / n) (2 * n * u64 * (Qsum xs * / n))) as Hm.
    { destruct Hsum as [S1 S2]. unfold within. split; lra. }
    assert (2 * n * u64 <= 1)%Q as Hnu1 by lra.
    assert (0 <= 2 * n * u64)%Q as Hnu0 by (unfold u64; lra).
    pose proof (within_nonneg _ _ _ HM Hnu1 Hm) as Hm0.
    pose proof (within_round _ _ _ _ u64 HM Hnu0 Hu Hm (rnd64_close _ Hm0)) as Hr.
    eapply within_weaken; [|exact Hr].
    assert (2 * n * u64 + u64 + 2 * n * u64 * u64 <= eps64)%Q as Hb.
    { unfold u64, eps64 in *. nra. }
    set (M := (Qsum xs * / n)%Q) in *. nra.
  - intros x Hx. cbn [fl_round1 binary64_ops].
    assert (0 <= x * 10)%Q as Hx10 by lra.
    pose proof (rnd64_close _ Hx10) as [Y1 Y2].
    pose proof (rnd64_nonneg _ Hx10) as Hy.
    set (y := rnd64 (x * 10)) in *.
    exists (rint y). pose proof (rint_nonneg y Hy) as Hk.
    pose proof (rint_close y) as Hr. apply Qabs_Qle_condition in Hr as [K1 K2].
    split; [done|]. split.
    + assert (u64 * (x * 10) <= eps64 * (10 * x))%Q by nra.
      unfold within. split; lra.
    + assert (0 <= inject_Z (rint y) / 10)%Q as Hk10.
      { assert (0 <= inject_Z (rint y))%Q
          by (change 0%Q with (inject_Z 0); by rewrite <- Zle_Qle).
        unfold Qdiv. change (/ 10)%Q with (1 # 10)%Q. lra. }
      eapply within_weaken; [|apply rnd64_close, Hk10].
      set (q := (inject_Z (rint y) / 10)%Q) in *. nra.
Qed.

(** * The page and the columns of the sheet *)

Lemma getcol_present {A} (df : Loaded) label (cell : Row -> A) :
  label ∈ labels df -> getcol df label cell = Returns (cell <$> body df).
Proof. intros H. unfold getcol. by rewrite bool_decide_eq_true_2. Qed.

Lemma getcol_absent {A} (df : Loaded) label (cell : Row -> A) :
  label ∉ labels df -> getcol df label cell = Raises (KeyError label).
Proof. intros H. unfold getcol. by rewrite bool_decide_eq_false_2. Qed.

Lemma loaded_filter_dept_present df sel :
  "부서" ∈ labels df ->
  loaded_filter_dept df sel
  = Returns {| labels := labels df; body := List.filter (passes_dept sel) (body df) |}.
Proof.
  intros H. unfold loaded_filter_dept. rewrite <- dept_filter_spec.
  destruct (dept_filtered sel); [|by destruct df].
  by rewrite (getcol_present _ _ _ H).
Qed.

Lemma page_trend_present df sel ds :
  has_page_columns df ->
  page_trend df sel ds
  = Returns ((fun d => {| base_month := strftime_Ym d;
                          headcount := length (temp_df (body df) sel d) |}) <$> ds).
Proof.
  intros (Hh & He & Hd). induction ds as [|d ds IH]; [done|].
  cbn [page_trend]. rewrite (getcol_present _ _ _ Hh), (getcol_present _ _ _ He).
  cbn [outcome_bind]. rewrite loaded_filter_dept_present by done.
  cbn [outcome_bind]. rewrite IH. cbn [outcome_bind body loaded_index fmap list_fmap].
  do 3 f_equal. unfold temp_df, mask_month. cbv zeta. by rewrite dept_filter_spec.
Qed.

(** With the three columns the page returns the results of the pipeline. *)
Lemma page_returns ops df picked choice :
  has_page_columns df ->
  page ops df picked choice
  = Returns {| kpi_total_count := total_count (body df) picked choice;
               kpi_avg_tenure := avg_tenure_fl ops (body df) picked choice;
               kpi_exit_count := exit_count (body df) picked choice;
               kpi_trend := trend_data (body df) picked choice |}.
Proof.
  intros Hc. pose proof Hc as (Hh & He & Hd). unfold page.
  rewrite (bool_decide_eq_true_2 _ Hd).
  rewrite (getcol_present _ _ _ Hh), (getcol_present _ _ _ He).
  cbn [outcome_bind read_name].
  rewrite loaded_filter_dept_present by done. cbn [outcome_bind body loaded_index labels].
  fold (mask_current (body df) picked). fold (df_current_unfiltered (body df) picked).
  assert (List.filter (passes_dept choice) (df_current_unfiltered (body df) picked)
          = df_current (body df) picked choice) as ->.
  { unfold df_current. by rewrite dept_filter_spec. }
  rewrite page_trend_present by done.
  assert (forall X : option Q,
            (if negb (bool_decide (df_current (body df) picked choice = []))
             then let! h := getcol {| labels := labels df;
                                      body := df_current (body df) picked choice |}
                                   "입사일" hire_date in
                  Returns (round1_fl ops (series_mean_fl ops
                    (div_scalar_fl ops (dt_days (ts_rsub (target_date picked) h)) 365)))
             else Returns X)
            = Returns (if negb (bool_decide (df_current (body df) picked choice = []))
                       then round1_fl ops (series_mean_fl ops
                              (tenure_years_fl ops (body df) picked choice))
                       else X)) as Havg.
  { intros X. destruct (negb _); [|done]. by rewrite getcol_present. }
  rewrite Havg. cbn [outcome_bind].
  destruct (dept_filtered choice) eqn:Hf.
  - rewrite (getcol_present _ _ _ Hd). cbn [outcome_bind].
    unfold total_count, avg_tenure_fl, exit_count, trend_data, mask_exit. cbv zeta.
    by rewrite Hf.
  - cbn [outcome_bind].
    unfold total_count, avg_tenure_fl, exit_count, trend_data, mask_exit. cbv zeta.
    by rewrite Hf.
Qed.

(** Without them it raises, at the first column or name that is missing. *)
Lemma page_raises ops df picked choice :
  ("입사일" ∉ labels df -> page ops df picked choice = Raises (KeyError "입사일")) /\
  ("입사일" ∈ labels df -> "퇴사일" ∉ labels df ->
   page ops df picked choice = Raises (KeyError "퇴사일")) /\
  ("입사일" ∈ labels df -> "퇴사일" ∈ labels df -> "부서" ∉ labels df ->
   page ops df picked choice = Raises (NameError "selected_dept")).
Proof.
  unfold page. split; [|split].
  - intros Hh. by rewrite (getcol_absent _ _ _ Hh).
  - intros Hh He. by rewrite (getcol_present _ _ _ Hh), (getcol_absent _ _ _ He).
  - intros Hh He Hd.
    rewrite (getcol_present _ _ _ Hh), (getcol_present _ _ _ He).
    by rewrite (bool_decide_eq_false_2 _ Hd).
Qed.

(** * The average tenure against the exact mean *)




(** * The average tenure is the rounded mean *)

(** C10: with a non-empty [df_current] the reported average tenure is
    [round(mean, 1)] of the column of tenures [days / 365] of its rows, the
    three operations being the float operations of the library; for
    operations of accuracy [eps] and at most [N] rows that value is, up to
    the float error, a whole number [k] of tenths, and [k] is an integer
    nearest to ten times the exact mean, up to the float error. *)
Theorem avg_tenure_rounded (ops : FloatOps) (eps : Q) (N : Z)
    (df : list Row) (picked : Z) (sel : option string) :
  float_accurate ops eps N ->
  df_current df picked sel <> [] ->
  Z.of_nat (length (df_current df picked sel)) <= N ->
  let reported :=
    fl_round1 ops
      (fl_mean ops ((fun r => fl_div ops (tenure_days (target_date picked) r) 365)
                      <$> df_current df picked sel)) in
  let M := mean_tenure_years (df_current df picked sel) (target_date picked) in
  avg_tenure_fl ops df picked sel = Some reported /\
  exists k : Z,
    0 <= k /\
    within (inject_Z k) (10 * M) ((1 # 2) + 41 * eps * M) /\
    within reported (inject_Z k / 10) (eps * (inject_Z k / 10)).
Proof.
  unfold target_date. rewrite df_current_spec. fold (active_set df picked sel).
  intros Hacc Hne Hlen. cbv zeta.
  destruct (avg_tenure_fl_tenths Hacc df picked sel Hne Hlen)
    as (a & k & Ha & Hk & HK & HA).
  pose proof (avg_tenure_fl_nonempty ops df picked sel Hne) as Hr.
  rewrite Hr in Ha. injection Ha as <-.
  split; [exact Hr|]. by exists k.
Qed.

Lemma avg_tenure_rounded_witness :
  avg_tenure_fl binary64_ops (roster_of_tenures 19889 [261; 85; 30; 135]) 19889 (Some ALL)
  = Some (5404319552844595 # 18014398509481984)%Q /\
  avg_tenure_fl binary64_ops (roster_of_tenures 19889 [4; 46; 11; 12]) 19889 (Some ALL)
  = Some (3602879701896397 # 36028797018963968)%Q.
Proof.
  split.
  - destruct (avg_tenure_rounded binary64_ops eps64 rows64
                (roster_of_tenures 19889 [261; 85; 30; 135]) 19889 (Some ALL)
                binary64_ops_accurate) as [H _];
      [vm_compute; discriminate|vm_compute; discriminate|].
    rewrite H. vm_compute. reflexivity.
  - destruct (avg_tenure_rounded binary64_ops eps64 rows64
                (roster_of_tenures 19889 [4; 46; 11; 12]) 19889 (Some ALL)
                binary64_ops_accurate) as [H _];
      [vm_compute; discriminate|vm_compute; discriminate|].
    rewrite H. vm_compute. reflexivity.
Defined.

(** * The empty roster *)


